(** * pagertally: the hour-classification calendar (pkg/calendar/calendar.go)

    A shallow embedding of the calendar package: Go's [time.Time] values, the
    RFC3339 keys of the hour tag table, the two classification passes and the
    tag lookup, followed by the properties of the specification that concern
    them. *)

From Stdlib Require Import ZArith Lia List String Ascii Bool.
From stdpp Require Import base option list strings gmap.

Local Open Scope string_scope.
Local Open Scope Z_scope.

(** ** The [time] package of the Go standard library *)

Module GoTime.

(** A [time.Location] is a zone table: the offset (seconds east of UTC) in
    force before the first transition, then the transitions in increasing
    order of their instant, each with the offset that starts there. *)
Record Location := mkLocation {
  locName : string;
  locZone0 : Z;
  locTx : list (Z * Z)
}.

Definition UTC : Location := mkLocation "UTC" 0 [].

Definition FixedZone (name : string) (offset : Z) : Location :=
  mkLocation name offset [].

(** [alpha] and [omega] of zoneinfo.go: the ends of time. *)
Definition alpha : Z := - 2 ^ 63.
Definition omega : Z := 2 ^ 63 - 1.

(** [lookupTx off start tx sec]: the zone in force at [sec], as
    (offset, start, end) of the period that holds [sec]. *)
Fixpoint lookupTx (off start : Z) (tx : list (Z * Z)) (sec : Z) : Z * Z * Z :=
  match tx with
  | [] => (off, start, omega)
  | (w, o) :: rest =>
      if sec <? w then (off, start, w) else lookupTx o w rest sec
  end.

Definition zoneLookup (l : Location) (sec : Z) : Z * Z * Z :=
  lookupTx (locZone0 l) alpha (locTx l) sec.

Definition offsetAt (l : Location) (sec : Z) : Z := (zoneLookup l sec).1.1.

(** A [time.Duration] is a count of nanoseconds. *)
Definition Duration := Z.
Definition Nanosecond : Duration := 1.
Definition Second : Duration := 1000000000.
Definition Minute : Duration := 60 * Second.
Definition Hour : Duration := 60 * Minute.

(** A [time.Time]: an instant (nanoseconds since the Unix epoch) presented
    in a location. *)
Record Time := mkTime {
  unixNano : Z;
  tLoc : Location
}.

Definition Unix (t : Time) : Z := unixNano t / Second.

Definition Add (t : Time) (d : Duration) : Time :=
  mkTime (unixNano t + d) (tLoc t).

Definition In (t : Time) (l : Location) : Time := mkTime (unixNano t) l.

Definition After (t u : Time) : bool := unixNano u <? unixNano t.
Definition Before (t u : Time) : bool := unixNano t <? unixNano u.

(** [t.Zone()]: the offset in force at [t] in its own location. *)
Definition Zone (t : Time) : Z := offsetAt (tLoc t) (Unix t).

(** Seconds of the wall clock of [t], counted from 1970-01-01 00:00:00 of
    that wall clock. *)
Definition localSec (t : Time) : Z := Unix t + Zone t.

Definition secondsPerDay : Z := 86400.

(** Proleptic Gregorian calendar: the civil date of a day number (days
    since 1970-01-01) and back. *)
Definition civilOfDoe (doe : Z) : Z * Z * Z :=
  let yoe := (doe - doe / 1460 + doe / 36524 - doe / 146096) / 365 in
  let doy := doe - (365 * yoe + yoe / 4 - yoe / 100) in
  let mp := (5 * doy + 2) / 153 in
  let d := doy - (153 * mp + 2) / 5 + 1 in
  let m := if mp <? 10 then mp + 3 else mp - 9 in
  (yoe, m, d).

Definition civilFromDays (z : Z) : Z * Z * Z :=
  let z' := z + 719468 in
  let era := z' / 146097 in
  let doe := z' mod 146097 in
  let '(yoe, m, d) := civilOfDoe doe in
  (yoe + era * 400 + (if m <=? 2 then 1 else 0), m, d).

Definition doeOfCivil (yoe m d : Z) : Z :=
  let doy := (153 * (if 2 <? m then m - 3 else m + 9) + 2) / 5 + d - 1 in
  yoe * 365 + yoe / 4 - yoe / 100 + doy.

Definition daysFromCivil (y m d : Z) : Z :=
  let y' := y - (if m <=? 2 then 1 else 0) in
  let era := y' / 400 in
  let yoe := y' mod 400 in
  era * 146097 + doeOfCivil yoe m d - 719468.

(** [t.Date()] and [t.Clock()]. *)
Definition Date_of (t : Time) : Z * Z * Z :=
  civilFromDays (localSec t / secondsPerDay).

Definition Clock (t : Time) : Z * Z * Z :=
  let s := localSec t mod secondsPerDay in
  (s / 3600, s mod 3600 / 60, s mod 60).

Definition HourOf (t : Time) : Z := (Clock t).1.1.

(** [time.Weekday]: Sunday is day 0 and 1970-01-01 was a Thursday. *)
Inductive Weekday :=
  Sunday | Monday | Tuesday | Wednesday | Thursday | Friday | Saturday.

Global Instance Weekday_eq_dec : EqDecision Weekday.
Proof. solve_decision. Defined.

Definition weekdayOfZ (n : Z) : Weekday :=
  match n with
  | 0 => Sunday | 1 => Monday | 2 => Tuesday | 3 => Wednesday
  | 4 => Thursday | 5 => Friday | _ => Saturday
  end.

Definition WeekdayOf (t : Time) : Weekday :=
  weekdayOfZ ((localSec t / secondsPerDay + 4) mod 7).

(** [time.Date(year, month, day, hour, min, sec, nsec, loc)]: the fields may
    be out of their usual ranges and are normalised; the offset is the one
    found at the wall-clock instant read as UTC, looked up a second time when
    the first guess falls outside the period of the zone found. *)
Definition Date (y mo d h mi s ns : Z) (l : Location) : Time :=
  let y' := y + (mo - 1) / 12 in
  let mo' := (mo - 1) mod 12 + 1 in
  let unix :=
    daysFromCivil y' mo' d * secondsPerDay + h * 3600 + mi * 60 + s
    + ns / Second in
  let '(offset, zstart, zend) := zoneLookup l unix in
  let offset' :=
    if offset =? 0 then 0
    else
      let utc := unix - offset in
      if (utc <? zstart) || (zend <=? utc) then offsetAt l utc else offset in
  mkTime ((unix - offset') * Second + ns mod Second) l.

(** The zero [time.Time]: January 1 of year 1, 00:00:00 UTC. *)
Definition zeroTime : Time := mkTime (-62135596800 * Second) UTC.

(** *** Formatting *)

Definition digitChar (d : Z) : ascii := ascii_of_N (48 + Z.to_N d).

(** The decimal digits of [u], most significant first; a Go [int] has at
    most 19 of them. *)
Fixpoint digitsOf (fuel : nat) (u : Z) (acc : string) : string :=
  match fuel with
  | O => acc
  | S f =>
      let acc' := String (digitChar (u mod 10)) acc in
      if u / 10 =? 0 then acc' else digitsOf f (u / 10) acc'
  end.

Fixpoint zeros (n : nat) : string :=
  match n with O => "" | S k => String "0" (zeros k) end.

(** [appendInt] of format.go: a sign for a negative number, then its
    decimal digits padded with zeros on the left up to [width]. *)
Definition appendInt (x : Z) (width : nat) : string :=
  let ds := digitsOf 20 (Z.abs x) "" in
  (if x <? 0 then "-" else "") +:+ zeros (width - String.length ds) +:+ ds.

(** The zone of the layout element [Z07:00]. *)
Definition formatZone (offset : Z) : string :=
  if offset =? 0 then "Z"
  else
    let zone := Z.quot offset 60 in
    (if zone <? 0 then "-" else "+")
    +:+ appendInt (Z.abs zone / 60) 2 +:+ ":" +:+ appendInt (Z.abs zone mod 60) 2.

Definition formatDate (t : Time) : string :=
  let '(y, m, d) := Date_of t in
  appendInt y 4 +:+ "-" +:+ appendInt m 2 +:+ "-" +:+ appendInt d 2.

Definition formatClock (t : Time) : string :=
  let '(h, mi, s) := Clock t in
  appendInt h 2 +:+ ":" +:+ appendInt mi 2 +:+ ":" +:+ appendInt s 2.

(** [t.Format(time.RFC3339)], layout [2006-01-02T15:04:05Z07:00]. *)
Definition FormatRFC3339 (t : Time) : string :=
  formatDate t +:+ "T" +:+ formatClock t +:+ formatZone (Zone t).

(** [t.Format("2006-01-02 15:04:05")]. *)
Definition FormatYmdHis (t : Time) : string :=
  formatDate t +:+ " " +:+ formatClock t.

(** *** Parsing with the layout [2006-01-02 15:04:05] *)

Definition isDigit (c : ascii) : bool :=
  let n := N_of_ascii c in ((48 <=? n) && (n <=? 57))%N.

Definition digitVal (c : ascii) : Z := Z.of_N (N_of_ascii c) - 48.

(** [getnum] of format.go: one or two digits, two when [fixed]. *)
Definition getnum (s : string) (fixed : bool) : option (Z * string) :=
  match s with
  | String a rest =>
      if isDigit a then
        match rest with
        | String b rest' =>
            if isDigit b then Some (digitVal a * 10 + digitVal b, rest')
            else if fixed then None else Some (digitVal a, rest)
        | EmptyString => if fixed then None else Some (digitVal a, rest)
        end
      else None
  | EmptyString => None
  end.

(** The four digits of the layout element [2006]. *)
Definition getyear (s : string) : option (Z * string) :=
  match s with
  | String a (String b (String c (String d rest))) =>
      if isDigit a && isDigit b && isDigit c && isDigit d then
        Some (((digitVal a * 10 + digitVal b) * 10 + digitVal c) * 10
              + digitVal d, rest)
      else None
  | _ => None
  end.

(** [skip] of format.go for a one-character literal of the layout. *)
Definition skipChar (c : ascii) (s : string) : option string :=
  match s with
  | String a rest => if decide (a = c) then Some rest else None
  | EmptyString => None
  end.

Fixpoint cutspace (s : string) : string :=
  match s with
  | String " " rest => cutspace rest
  | _ => s
  end.

(** [skip] for a space of the layout: the value, unless it is empty, must
    start with a space, and all its leading spaces go. *)
Definition skipSpace (s : string) : option string :=
  match s with
  | EmptyString => Some s
  | String a _ => if decide (a = " "%char) then Some (cutspace s) else None
  end.

Fixpoint spanDigits (s : string) : string * string :=
  match s with
  | String a rest =>
      if isDigit a then
        let '(ds, r) := spanDigits rest in (String a ds, r)
      else (EmptyString, s)
  | EmptyString => (EmptyString, s)
  end.

Fixpoint atoiDigits (s : string) (acc : Z) : Z :=
  match s with
  | String a rest => atoiDigits rest (acc * 10 + digitVal a)
  | EmptyString => acc
  end.

Fixpoint takeString (n : nat) (s : string) : string :=
  match n, s with
  | S k, String a rest => String a (takeString k rest)
  | _, _ => EmptyString
  end.

(** A fractional second may follow the seconds though the layout has none:
    a comma or period and digits, of which the first nine count. *)
Definition fracSecond (s : string) : Z * string :=
  match s with
  | String a (String b rest) =>
      if (bool_decide (a = "."%char) || bool_decide (a = ","%char))
         && isDigit b then
        let '(ds, r) := spanDigits (String b rest) in
        let ds9 := takeString 9 ds in
        (atoiDigits ds9 0 * 10 ^ (9 - Z.of_nat (String.length ds9)), r)
      else (0, s)
  | _ => (0, s)
  end.

Definition isLeap (y : Z) : bool :=
  (y mod 4 =? 0) && (negb (y mod 100 =? 0) || (y mod 400 =? 0)).

Definition daysIn (m y : Z) : Z :=
  if m =? 2 then (if isLeap y then 29 else 28)
  else if (m =? 4) || (m =? 6) || (m =? 9) || (m =? 11) then 30 else 31.

Definition inRange (lo x hi : Z) : bool := (lo <=? x) && (x <=? hi).

(** [time.Parse("2006-01-02 15:04:05", value)]; [None] is a parse error. *)
Definition ParseYmdHis (value : string) : option Time :=
  '(y, v) ← getyear value;
  v ← skipChar "-" v;
  '(mo, v) ← getnum v true;
  guard (inRange 1 mo 12);;
  v ← skipChar "-" v;
  '(d, v) ← getnum v true;
  v ← skipSpace v;
  '(h, v) ← getnum v false;
  guard (inRange 0 h 23);;
  v ← skipChar ":" v;
  '(mi, v) ← getnum v true;
  guard (inRange 0 mi 59);;
  v ← skipChar ":" v;
  '(s, v) ← getnum v true;
  guard (inRange 0 s 59);;
  let '(ns, v) := fracSecond v in
  guard (v = EmptyString);;
  guard (inRange 1 d (daysIn mo y));;
  Some (Date y mo d h mi s ns UTC).

#[global] Arguments Date : simpl never.
#[global] Arguments FormatRFC3339 : simpl never.
#[global] Arguments FormatYmdHis : simpl never.
#[global] Arguments ParseYmdHis : simpl never.
#[global] Arguments WeekdayOf : simpl never.
#[global] Arguments HourOf : simpl never.
#[global] Arguments Zone : simpl never.

End GoTime.

Import GoTime.

(** ** timerange-go, the iterator over a range of instants

    [timerange.New(start, end, interval)] with [for tr.Next() { tr.Current() }]
    visits start, start+interval, ... as long as the instant is not after
    [end]: the end is included, which is what calendar.go relies on when it
    stops the weekday evening at day+23h "to avoid adding an extra hour at the
    end of the day" and a holiday one hour before the event's end. *)
Module TimeRange.

Record Iter := mkIter {
  iNext : Time;
  iEnd : Time;
  iStep : Duration;
  iCur : Time
}.

Definition New (start end_ : Time) (interval : Duration) : Iter :=
  mkIter start end_ interval start.

(** [Next] reports whether there is a further instant and moves to it. *)
Definition Next (it : Iter) : option Iter :=
  if After (iNext it) (iEnd it) then None
  else Some (mkIter (Add (iNext it) (iStep it)) (iEnd it) (iStep it) (iNext it)).

Definition Current (it : Iter) : Time := iCur it.

(** The number of instants left to visit, for a positive interval. *)
Definition remaining (it : Iter) : nat :=
  Z.to_nat ((unixNano (iEnd it) - unixNano (iNext it)) / iStep it + 1).

(** [for it.Next() { s = body(it.Current(), s) }], at most [fuel] rounds. *)
Fixpoint loop {St : Type} (fuel : nat) (it : Iter) (body : Time → St → St)
    (s : St) : St :=
  match fuel with
  | O => s
  | S f =>
      match Next it with
      | None => s
      | Some it' => loop f it' body (body (Current it') s)
      end
  end.

(** The loop run to its end. *)
Definition each {St : Type} (start end_ : Time) (interval : Duration)
    (body : Time → St → St) (s : St) : St :=
  let it := New start end_ interval in
  loop (remaining it) it body s.

(** The instants the loop visits, in order. *)
Definition times (start end_ : Time) (interval : Duration) : list Time :=
  each start end_ interval (fun t acc => (acc ++ [t])%list) [].

End TimeRange.

(** ** The calendar *)

Definition BusinessHour : Z := 1.
Definition BusinessAfterHour : Z := 2.
Definition WeekendHour : Z := 3.
Definition StatHolidayHour : Z := 4.

(** The fields of [config.ScheduleConfig] that the calendar reads. *)
Record BusinessHoursConfig := mkBusinessHours {
  bhStart : string;
  bhEnd : string
}.

Record ScheduleConfig := mkScheduleConfig {
  Timezone : string;
  ParsedTimezone : Location;
  CalendarURL : string;
  BusinessHours : BusinessHoursConfig;
  Holidays : list string
}.

(** An event of the holiday feed, and a parsed feed calendar as
    [GetEventsByDates] gives it: the events of each day under the day's
    [2006-01-02 15:04:05] key. *)
Record Event := mkEvent {
  GetSummary : string;
  GetStart : Time;
  GetEnd : Time
}.

Abbreviation EventsByDates := (gmap string (list Event)).

(** What the calendar asks of its surroundings: the zone database behind
    [time.LoadLocation] and the feed parser behind [GetCalendars]; [None] is
    the error return of either. *)
Record World := mkWorld {
  LoadLocation : string → option Location;
  GetCalendars : string → option (list EventsByDates)
}.

Record Calendar := mkCalendar {
  CalStart : Time;
  CalEnd : Time;
  CalDays : list Time;
  CalendarHours : gmap string Z;
  Config : ScheduleConfig;
  CalTimezone : Location
}.

Definition setHours (c : Calendar) (m : gmap string Z) : Calendar :=
  mkCalendar (CalStart c) (CalEnd c) (CalDays c) m (Config c) (CalTimezone c).

(** Indexing a Go map: the zero value for a missing key. *)
Definition hoursAt (c : Calendar) (k : string) : Z :=
  default 0 (CalendarHours c !! k).

Definition FlattenTime (t : Time) : Time :=
  let '(y, m, d) := Date_of t in
  let '(h, _, _) := Clock t in
  Date y m d h 0 0 0 (tLoc t).

Definition FlattenDate (t : Time) : Time :=
  let '(y, m, d) := Date_of t in
  Date y m d 0 0 0 0 (tLoc t).

Definition AdjustForTimezone (t : Time) (loc : Location) : Time :=
  let flatTime := FlattenTime t in
  let tzOffsetSeconds := Zone (In flatTime loc) in
  In (Add flatTime (Second * (- tzOffsetSeconds))) loc.

Definition GetBusinessHours (c : Calendar) : Time * Time :=
  let startTime := default zeroTime (ParseYmdHis (bhStart (BusinessHours (Config c)))) in
  let endTime := default zeroTime (ParseYmdHis (bhEnd (BusinessHours (Config c)))) in
  (startTime, endTime).

Definition addHour (c : Calendar) (hourStart : Time) (hourType : Z) : Calendar :=
  setHours c (<[FormatRFC3339 hourStart := hourType]> (CalendarHours c)).

Definition filterEvent (c : Calendar) (eventName : string) : bool :=
  existsb (String.eqb eventName) (Holidays (Config c)).

(** The hours of one whitelisted event. *)
Definition tagEvent (c : Calendar) (event : Event) : Calendar :=
  let eventFlatStart := FlattenTime (GetStart event) in
  let eventFlatEnd := FlattenTime (GetEnd event) in
  TimeRange.each eventFlatStart (Add eventFlatEnd (-1 * Hour)) Hour
    (fun cur c =>
       let adjustedTime := AdjustForTimezone cur (ParsedTimezone (Config c)) in
       addHour c adjustedTime StatHolidayHour)
    c.

Definition tagEvents (c : Calendar) (events : list Event) : Calendar :=
  fold_left
    (fun c event =>
       if filterEvent c (GetSummary event) then tagEvent c event else c)
    events c.

(** The holidays of one feed calendar over the days of the schedule. *)
Definition tagHolidays (c : Calendar) (eventsByDates : EventsByDates) : Calendar :=
  fold_left
    (fun c schedDay =>
       let schedDay := FlattenTime schedDay in
       match eventsByDates !! FormatYmdHis schedDay with
       | None => c
       | Some events => tagEvents c events
       end)
    (CalDays c) c.

(** Pass 1; [inl] is the error return. *)
Definition parseAndFilterPublicHolidayiCal (w : World) (c : Calendar)
    (icsLink : string) : string + Calendar :=
  match GetCalendars w icsLink with
  | None => inl "Failed to parse iCal"
  | Some cals => inr (fold_left tagHolidays cals c)
  end.

(** A write of pass 2: the hour keeps a statutory-holiday tag. *)
Definition tagUnlessHoliday (hourType : Z) (cur : Time) (c : Calendar) : Calendar :=
  if decide (hoursAt c (FormatRFC3339 (FlattenTime cur)) ≠ StatHolidayHour)
  then addHour c (FlattenTime cur) hourType
  else c.

(** The body of the loop of pass 2 for one day. *)
Definition tagDay (bStart bEnd : Time) (c : Calendar) (day : Time) : Calendar :=
  if bool_decide (WeekdayOf day = Saturday) || bool_decide (WeekdayOf day = Sunday)
  then
    TimeRange.each day (Add day (Hour * 24)) Hour (tagUnlessHoliday WeekendHour) c
  else
    let c :=
      TimeRange.each day (Add day (Hour * HourOf bStart)) Hour
        (tagUnlessHoliday BusinessAfterHour) c in
    if decide (WeekdayOf day ≠ Friday) then
      TimeRange.each (Add day (Hour * HourOf bEnd)) (Add day (Hour * 23)) Hour
        (tagUnlessHoliday BusinessAfterHour) c
    else
      TimeRange.each (Add day (Hour * HourOf bEnd)) (Add day (Hour * 24)) Hour
        (tagUnlessHoliday WeekendHour) c.

(** Pass 2. *)
Definition tagAfterhoursAndWeekends (c : Calendar) : Calendar :=
  let '(bStart, bEnd) := GetBusinessHours c in
  fold_left (tagDay bStart bEnd) (CalDays c) c.

(** The outcome of a function that may panic. *)
Inductive Outcome (A : Type) :=
  | Returns (a : A)
  | Panics (msg : string).
Arguments Returns {A} a.
Arguments Panics {A} msg.

Definition returnsb {A : Type} (o : Outcome A) : bool :=
  match o with Returns _ => true | Panics _ => false end.

Definition NewCalendar (w : World) (startDate endDate : Time)
    (conf : ScheduleConfig) : Outcome Calendar :=
  let fStartDate := FlattenTime startDate in
  let fEndDate := FlattenTime endDate in
  let calDays := TimeRange.times fStartDate fEndDate (Hour * 24) in
  match LoadLocation w (Timezone conf) with
  | None => Panics "Failed loading location from timezone provided"
  | Some loc =>
      let cal := mkCalendar fStartDate fEndDate calDays ∅ conf loc in
      match parseAndFilterPublicHolidayiCal w cal (CalendarURL (Config cal)) with
      | inl err => Panics err
      | inr cal => Returns (tagAfterhoursAndWeekends cal)
      end
  end.

Definition GetHourTag (c : Calendar) (h : Time) : Z :=
  match CalendarHours c !! FormatRFC3339 h with
  | None => BusinessHour
  | Some hourType => hourType
  end.

#[global] Arguments FlattenTime : simpl never.
#[global] Arguments AdjustForTimezone : simpl never.
#[global] Arguments GetBusinessHours : simpl never.

(** Proofs below take these functions as they are named; the proofs about
    the time arithmetic itself open them again. *)
Opaque FormatRFC3339 FormatYmdHis FlattenTime AdjustForTimezone ParseYmdHis Date.

(** ** The iterator visits an arithmetic progression *)

Section TimeRangeFacts.

Import TimeRange.

(** [n] instants from [start], [step] apart. *)
Definition stepsList (start : Time) (step : Duration) (n : nat) : list Time :=
  map (fun k => Add start (Z.of_nat k * step)) (seq 0 n).

(** How many instants [start], [start + step], ... are not after [end_]. *)
Definition count (start end_ : Time) (step : Duration) : nat :=
  Z.to_nat ((unixNano end_ - unixNano start) / step + 1).

Lemma Add_0 t : Add t 0 = t.
Proof. destruct t as [n l]. unfold Add. simpl. f_equal. lia. Qed.

Lemma Add_Add t a b : Add (Add t a) b = Add t (a + b).
Proof. unfold Add. simpl. f_equal. lia. Qed.

Lemma stepsList_S start step n :
  stepsList start step (S n) = start :: stepsList (Add start step) step n.
Proof.
  unfold stepsList. simpl. rewrite Add_0. f_equal.
  rewrite <- seq_shift, map_map. apply map_ext. intros k.
  rewrite Add_Add. f_equal. lia.
Qed.

Lemma remaining_after it :
  0 < iStep it → After (iNext it) (iEnd it) = true → remaining it = O.
Proof.
  unfold After, remaining. intros Hs Ha. apply Z.ltb_lt in Ha.
  assert ((unixNano (iEnd it) - unixNano (iNext it)) / iStep it < 0)
    by (apply Z.div_lt_upper_bound; lia).
  lia.
Qed.

Lemma remaining_not_after it :
  0 < iStep it → After (iNext it) (iEnd it) = false →
  ∃ it', Next it = Some it' ∧ Current it' = iNext it
         ∧ iNext it' = Add (iNext it) (iStep it) ∧ iStep it' = iStep it
         ∧ iEnd it' = iEnd it ∧ remaining it = S (remaining it').
Proof.
  unfold After, remaining, Next, After. intros Hs Ha. rewrite Ha.
  apply Z.ltb_ge in Ha. eexists. split; [reflexivity|]. simpl.
  repeat split.
  replace (unixNano (iEnd it) - (unixNano (iNext it) + iStep it))
    with (unixNano (iEnd it) - unixNano (iNext it) + (-1) * iStep it) by lia.
  rewrite Z.div_add by lia.
  assert (0 <= (unixNano (iEnd it) - unixNano (iNext it)) / iStep it)
    by (apply Z.div_pos; lia).
  lia.
Qed.

(** With the fuel [remaining] the loop stops because [Next] says so, and it
    has run the body on each instant of the progression, in order. *)
Lemma loop_steps {St : Type} (body : Time → St → St) n : ∀ it s,
  0 < iStep it → remaining it = n →
  loop n it body s
  = fold_left (fun s t => body t s) (stepsList (iNext it) (iStep it) n) s
    ∧ (∀ it', iNext it' = Add (iNext it) (Z.of_nat n * iStep it) →
              iEnd it' = iEnd it → iStep it' = iStep it → Next it' = None).
Proof.
  induction n as [|n IH]; intros it s Hs Hr.
  - split; [reflexivity|]. intros it' Hn He Hst.
    rewrite Z.mul_0_l, Add_0 in Hn. unfold Next.
    destruct (After (iNext it) (iEnd it)) eqn:Ha.
    + rewrite Hn, He, Ha. reflexivity.
    + destruct (remaining_not_after it Hs Ha) as (? & _ & _ & _ & _ & _ & ?).
      congruence.
  - destruct (After (iNext it) (iEnd it)) eqn:Ha.
    { rewrite remaining_after in Hr by assumption. discriminate. }
    destruct (remaining_not_after it Hs Ha)
      as (it1 & HN & Hc & Hn1 & Hs1 & He1 & Hr1).
    assert (Hrn : remaining it1 = n) by congruence.
    destruct (IH it1 (body (iNext it) s) ltac:(lia) Hrn) as [IH1 IH2].
    split.
    + rewrite stepsList_S. cbn [loop fold_left].
      rewrite HN, Hc, IH1, Hn1, Hs1. reflexivity.
    + intros it' Hn He Hst. apply IH2; try congruence.
      rewrite Hn, Hn1, Hs1, Add_Add. f_equal. lia.
Qed.

Lemma each_fold {St : Type} start end_ step (body : Time → St → St) s :
  0 < step →
  each start end_ step body s
  = fold_left (fun s t => body t s) (stepsList start step (count start end_ step)) s.
Proof.
  intros Hs. unfold each.
  apply (loop_steps body _ (New start end_ step) s Hs eq_refl).
Qed.

Lemma times_steps start end_ step :
  0 < step → times start end_ step = stepsList start step (count start end_ step).
Proof.
  intros Hs. unfold times. rewrite each_fold by assumption.
  assert (H : ∀ (l acc : list Time),
             fold_left (fun s t => (s ++ [t])%list) l acc = (acc ++ l)%list).
  { induction l as [|t l IH]; intros acc; simpl.
    - rewrite app_nil_r. reflexivity.
    - rewrite IH, <- app_assoc. reflexivity. }
  apply H.
Qed.

Lemma elem_of_stepsList t start step n :
  t ∈ stepsList start step n
  ↔ ∃ k, (k < n)%nat ∧ t = Add start (Z.of_nat k * step).
Proof.
  unfold stepsList. rewrite list_elem_of_fmap. split.
  - intros (k & -> & Hk). apply elem_of_seq in Hk. exists k. split; [lia|done].
  - intros (k & Hk & ->). exists k. split; [done|]. apply elem_of_seq. lia.
Qed.

End TimeRangeFacts.

(** ** The two passes as sequences of writes on the hour tag table *)

Section Writes.

(** The key under which pass 2 files the hour of an instant. *)
Definition hourKey (t : Time) : string := FormatRFC3339 (FlattenTime t).

(** A write of pass 1 and a write of pass 2, on the table alone. *)
Definition holidayWrite (m : gmap string Z) (k : string) : gmap string Z :=
  <[k := StatHolidayHour]> m.

Definition guardedWrite (m : gmap string Z) (w : string * Z) : gmap string Z :=
  if decide (default 0 (m !! w.1) ≠ StatHolidayHour) then <[w.1 := w.2]> m
  else m.

(** The writes of one loop of pass 2 over a range of hours. *)
Definition rangeWrites (start end_ : Time) (hourType : Z) : list (string * Z) :=
  map (fun t => (hourKey t, hourType)) (stepsList start Hour (count start end_ Hour)).

(** The writes of pass 2 for one day, in the order they happen. *)
Definition dayWrites (bStart bEnd day : Time) : list (string * Z) :=
  if bool_decide (WeekdayOf day = Saturday) || bool_decide (WeekdayOf day = Sunday)
  then rangeWrites day (Add day (Hour * 24)) WeekendHour
  else
    rangeWrites day (Add day (Hour * HourOf bStart)) BusinessAfterHour
    ++ (if decide (WeekdayOf day ≠ Friday)
        then rangeWrites (Add day (Hour * HourOf bEnd)) (Add day (Hour * 23))
               BusinessAfterHour
        else rangeWrites (Add day (Hour * HourOf bEnd)) (Add day (Hour * 24))
               WeekendHour).

Definition pass2Writes (c : Calendar) : list (string * Z) :=
  flat_map (dayWrites (GetBusinessHours c).1 (GetBusinessHours c).2) (CalDays c).

(** The instants of one event, before the adjustment to the time zone, and
    the keys pass 1 writes for it. *)
Definition eventHours (event : Event) : list Time :=
  stepsList (FlattenTime (GetStart event)) Hour
    (count (FlattenTime (GetStart event))
       (Add (FlattenTime (GetEnd event)) (-1 * Hour)) Hour).

Definition holidayKey (c : Calendar) (t : Time) : string :=
  FormatRFC3339 (AdjustForTimezone t (ParsedTimezone (Config c))).

Definition eventKeys (c : Calendar) (event : Event) : list string :=
  map (holidayKey c) (eventHours event).

Definition eventsKeys (c : Calendar) (events : list Event) : list string :=
  flat_map (fun e => if filterEvent c (GetSummary e) then eventKeys c e else [])
    events.

Definition feedKeys (c : Calendar) (eventsByDates : EventsByDates) : list string :=
  flat_map
    (fun day => eventsKeys c (default [] (eventsByDates !! FormatYmdHis (FlattenTime day))))
    (CalDays c).

Definition pass1Keys (c : Calendar) (cals : list EventsByDates) : list string :=
  flat_map (feedKeys c) cals.

Lemma Hour_pos : 0 < Hour.
Proof. reflexivity. Qed.

Lemma setHours_id c : setHours c (CalendarHours c) = c.
Proof. destruct c; reflexivity. Qed.

Lemma setHours_setHours c m m' : setHours (setHours c m) m' = setHours c m'.
Proof. reflexivity. Qed.

(** A loop whose body only writes the table writes, in all, the writes of
    its rounds one after the other. *)
Lemma fold_left_writes {A K : Type} (f : Calendar → A → Calendar)
    (g : Calendar → A → list K) (wr : gmap string Z → K → gmap string Z) :
  (∀ c m, g (setHours c m) = g c) →
  (∀ c a, f c a = setHours c (fold_left wr (g c a) (CalendarHours c))) →
  ∀ l c, fold_left f l c
         = setHours c (fold_left wr (flat_map (g c) l) (CalendarHours c)).
Proof.
  intros Hg Hf l. induction l as [|a l IH]; intros c; simpl.
  - symmetry. apply setHours_id.
  - rewrite IH, Hf, Hg, setHours_setHours, fold_left_app. reflexivity.
Qed.

Lemma addHour_write c t ty :
  addHour c t ty = setHours c (<[FormatRFC3339 t := ty]> (CalendarHours c)).
Proof. reflexivity. Qed.

Lemma tagUnlessHoliday_write ty t c :
  tagUnlessHoliday ty t c
  = setHours c (guardedWrite (CalendarHours c) (hourKey t, ty)).
Proof.
  unfold tagUnlessHoliday, guardedWrite, hoursAt, hourKey. cbn [fst snd].
  destruct (decide _); [reflexivity|]. symmetry. apply setHours_id.
Qed.

Lemma each_tagUnlessHoliday start end_ ty c :
  TimeRange.each start end_ Hour (tagUnlessHoliday ty) c
  = setHours c (fold_left guardedWrite (rangeWrites start end_ ty) (CalendarHours c)).
Proof.
  rewrite each_fold by apply Hour_pos. unfold rangeWrites.
  generalize (stepsList start Hour (count start end_ Hour)) as l. intros l.
  rewrite (fold_left_writes (fun c t => tagUnlessHoliday ty t c)
             (fun _ t => [(hourKey t, ty)]) guardedWrite); [|done|].
  - replace (flat_map (fun t => [(hourKey t, ty)]) l)
      with (map (fun t => (hourKey t, ty)) l); [reflexivity|].
    induction l as [|t l IH]; simpl; congruence.
  - intros c' t. apply tagUnlessHoliday_write.
Qed.

Lemma tagDay_writes bStart bEnd c day :
  tagDay bStart bEnd c day
  = setHours c (fold_left guardedWrite (dayWrites bStart bEnd day) (CalendarHours c)).
Proof.
  unfold tagDay, dayWrites.
  destruct (bool_decide (WeekdayOf day = Saturday) || bool_decide (WeekdayOf day = Sunday)).
  - apply each_tagUnlessHoliday.
  - rewrite fold_left_app. destruct (decide (WeekdayOf day ≠ Friday));
      rewrite !each_tagUnlessHoliday; reflexivity.
Qed.

(** Pass 2 runs its guarded writes day after day. *)
Lemma tagAfterhoursAndWeekends_writes c :
  tagAfterhoursAndWeekends c
  = setHours c (fold_left guardedWrite (pass2Writes c) (CalendarHours c)).
Proof.
  unfold tagAfterhoursAndWeekends, pass2Writes.
  destruct (GetBusinessHours c) as [bStart bEnd]. simpl.
  apply (fold_left_writes (tagDay bStart bEnd) (fun _ => dayWrites bStart bEnd)).
  - done.
  - intros c' day. apply tagDay_writes.
Qed.

Lemma tagEvent_writes c event :
  tagEvent c event
  = setHours c (fold_left holidayWrite (eventKeys c event) (CalendarHours c)).
Proof.
  unfold tagEvent, eventKeys, eventHours.
  rewrite each_fold by apply Hour_pos.
  generalize (stepsList (FlattenTime (GetStart event)) Hour
                (count (FlattenTime (GetStart event))
                   (Add (FlattenTime (GetEnd event)) (-1 * Hour)) Hour)) as l.
  intros l. revert c. induction l as [|t l IH]; intros c; cbn [fold_left map].
  - symmetry. apply setHours_id.
  - rewrite IH. reflexivity.
Qed.

Lemma tagEvents_writes c events :
  tagEvents c events
  = setHours c (fold_left holidayWrite (eventsKeys c events) (CalendarHours c)).
Proof.
  unfold tagEvents, eventsKeys.
  apply (fold_left_writes _
           (fun c e => if filterEvent c (GetSummary e) then eventKeys c e else [])).
  - done.
  - intros c' e. destruct (filterEvent c' (GetSummary e)).
    + apply tagEvent_writes.
    + symmetry. apply setHours_id.
Qed.

Lemma tagHolidays_writes c feed :
  tagHolidays c feed
  = setHours c (fold_left holidayWrite (feedKeys c feed) (CalendarHours c)).
Proof.
  unfold tagHolidays, feedKeys.
  generalize (CalDays c) as days. intros days. revert c.
  induction days as [|day days IH]; intros c; cbn [fold_left flat_map].
  - symmetry. apply setHours_id.
  - rewrite fold_left_app.
    destruct (feed !! FormatYmdHis (FlattenTime day)) as [events|];
      cbn [default].
    + rewrite tagEvents_writes, IH. reflexivity.
    + apply IH.
Qed.

(** Pass 1 writes the statutory-holiday tag under each of its keys. *)
Lemma pass1_writes c cals :
  fold_left tagHolidays cals c
  = setHours c (fold_left holidayWrite (pass1Keys c cals) (CalendarHours c)).
Proof.
  unfold pass1Keys.
  apply (fold_left_writes tagHolidays feedKeys holidayWrite); [done|].
  intros c' feed. apply tagHolidays_writes.
Qed.

End Writes.

(** ** What a sequence of writes leaves in the table *)

Section TableFacts.

Implicit Types (m : gmap string Z) (k : string) (ws : list (string * Z)).

Lemma holidayWrites_in ks m k :
  k ∈ ks → fold_left holidayWrite ks m !! k = Some StatHolidayHour.
Proof.
  revert m. induction ks as [|k' ks IH] using rev_ind; intros m Hk.
  - by apply elem_of_nil in Hk.
  - rewrite fold_left_app. simpl. unfold holidayWrite at 1.
    destruct (decide (k' = k)) as [->|Hne].
    + apply lookup_insert_eq.
    + rewrite lookup_insert_ne by done. apply IH.
      apply elem_of_app in Hk as [Hk|Hk]; [done|].
      apply list_elem_of_singleton in Hk. congruence.
Qed.

Lemma holidayWrites_notin ks m k :
  k ∉ ks → fold_left holidayWrite ks m !! k = m !! k.
Proof.
  revert m. induction ks as [|k' ks IH]; intros m Hk; simpl; [done|].
  rewrite IH by (intros ?; apply Hk; by right).
  unfold holidayWrite. apply lookup_insert_ne. intros ->. apply Hk. by left.
Qed.

Lemma holidayWrites_only ks m k v :
  fold_left holidayWrite ks m !! k = Some v →
  v = StatHolidayHour ∨ m !! k = Some v.
Proof.
  destruct (decide (k ∈ ks)) as [Hin|Hout].
  - rewrite holidayWrites_in by done. intros [= <-]. by left.
  - rewrite holidayWrites_notin by done. by right.
Qed.

Lemma guardedWrite_other m w k :
  w.1 ≠ k → guardedWrite m w !! k = m !! k.
Proof.
  intros Hne. unfold guardedWrite. destruct (decide _); [|done].
  by apply lookup_insert_ne.
Qed.

Lemma guardedWrite_self m w :
  m !! w.1 ≠ Some StatHolidayHour → guardedWrite m w !! w.1 = Some w.2.
Proof.
  intros Hm. unfold guardedWrite. destruct (decide _) as [|Hn].
  - apply lookup_insert_eq.
  - exfalso. apply Hm. destruct (m !! w.1) as [v|]; simpl in Hn.
    + destruct (decide (v = StatHolidayHour)) as [->|Hv]; [done|].
      exfalso. apply Hn. exact Hv.
    + exfalso. apply Hn. done.
Qed.

Lemma guardedWrite_holiday m w k :
  m !! k = Some StatHolidayHour → guardedWrite m w !! k = Some StatHolidayHour.
Proof.
  intros Hk. unfold guardedWrite. destruct (decide _) as [Hne|]; [|done].
  rewrite lookup_insert_ne; [done|]. intros E. apply Hne. rewrite E, Hk. done.
Qed.

(** A key that holds the statutory-holiday tag holds it after any sequence
    of writes of pass 2. *)
Lemma guardedWrites_holiday ws m k :
  m !! k = Some StatHolidayHour →
  fold_left guardedWrite ws m !! k = Some StatHolidayHour.
Proof.
  revert m. induction ws as [|w ws IH]; intros m Hk; simpl; [done|].
  apply IH. by apply guardedWrite_holiday.
Qed.

Lemma guardedWrites_notin ws m k :
  k ∉ ws.*1 → fold_left guardedWrite ws m !! k = m !! k.
Proof.
  revert m. induction ws as [|w ws IH]; intros m Hk; simpl; [done|].
  rewrite IH by (intros ?; apply Hk; simpl; by right).
  unfold guardedWrite. destruct (decide _); [|done].
  apply lookup_insert_ne. intros E. apply Hk. simpl. rewrite E. by left.
Qed.

(** Pass 2 writes no statutory-holiday tag of its own. *)
Lemma guardedWrites_no_new_holiday ws m k :
  Forall (fun w => w.2 ≠ StatHolidayHour) ws →
  fold_left guardedWrite ws m !! k = Some StatHolidayHour →
  m !! k = Some StatHolidayHour.
Proof.
  revert m. induction ws as [|w ws IH]; intros m Hws; simpl; [done|].
  inversion Hws as [|? ? Hw Hws']; subst. intros H. apply IH in H; [|done].
  unfold guardedWrite in H. destruct (decide _); [|done].
  destruct (decide (w.1 = k)) as [E|Hne].
  - rewrite E, lookup_insert_eq in H. congruence.
  - by rewrite lookup_insert_ne in H.
Qed.

(** The last write to a key decides its tag: after a write of [ty] under
    [k], followed only by writes under other keys or of the same tag, a
    key that is no holiday holds [ty]. *)
Lemma guardedWrites_last ws1 ws2 m k ty :
  Forall (fun w => w.2 ≠ StatHolidayHour) ws1 →
  ty ≠ StatHolidayHour →
  Forall (fun w => w.1 ≠ k ∨ w.2 = ty) ws2 →
  m !! k ≠ Some StatHolidayHour →
  fold_left guardedWrite (ws1 ++ (k, ty) :: ws2) m !! k = Some ty.
Proof.
  intros Hws1 Hty Hws2 Hm. rewrite fold_left_app. simpl.
  set (m1 := fold_left guardedWrite ws1 m).
  assert (Hm1 : m1 !! k ≠ Some StatHolidayHour).
  { intros H. apply Hm. by apply (guardedWrites_no_new_holiday ws1). }
  assert (H0 : guardedWrite m1 (k, ty) !! k = Some ty).
  { unfold guardedWrite. simpl. destruct (decide _) as [|Hn].
    - apply lookup_insert_eq.
    - exfalso. apply Hm1. destruct (m1 !! k) as [v|]; simpl in Hn.
      + destruct (decide (v = StatHolidayHour)) as [->|Hv]; [done|].
        exfalso. apply Hn. exact Hv.
      + exfalso. apply Hn. done. }
  clearbody m1. revert H0. generalize (guardedWrite m1 (k, ty)) as m2.
  induction Hws2 as [|w ws2 Hw Hws2 IH]; intros m2 H2; simpl; [done|].
  apply IH. unfold guardedWrite. destruct (decide _); [|done].
  destruct (decide (w.1 = k)) as [E|Hne].
  - rewrite E, lookup_insert_eq. destruct Hw; congruence.
  - by rewrite lookup_insert_ne.
Qed.

(** The tag of the last write under [k] in a sequence of writes. *)
Fixpoint lastWrite (ws : list (string * Z)) (k : string) : option Z :=
  match ws with
  | [] => None
  | w :: ws' =>
      match lastWrite ws' k with
      | Some ty => Some ty
      | None => if decide (w.1 = k) then Some w.2 else None
      end
  end.

Lemma lastWrite_snoc ws w k :
  lastWrite (ws ++ [w]) k
  = if decide (w.1 = k) then Some w.2 else lastWrite ws k.
Proof.
  induction ws as [|w' ws IH]; simpl.
  - destruct (decide (w.1 = k)); reflexivity.
  - rewrite IH. destruct (decide (w.1 = k)); [reflexivity|].
    destruct (lastWrite ws k); reflexivity.
Qed.

Lemma lastWrite_app ws1 ws2 k :
  lastWrite (ws1 ++ ws2) k
  = match lastWrite ws2 k with Some ty => Some ty | None => lastWrite ws1 k end.
Proof.
  induction ws1 as [|w ws1 IH]; simpl.
  - destruct (lastWrite ws2 k); reflexivity.
  - rewrite IH. destruct (lastWrite ws2 k); reflexivity.
Qed.

Lemma lastWrite_None ws k : lastWrite ws k = None ↔ k ∉ ws.*1.
Proof.
  induction ws as [|w ws IH]; simpl.
  - split; [intros _; apply not_elem_of_nil|done].
  - rewrite not_elem_of_cons. destruct (lastWrite ws k) eqn:E.
    + split; [done|]. intros [_ H]. apply IH in H. done.
    + destruct (decide (w.1 = k)) as [<-|Hne].
      * split; [done|]. intros [H _]. done.
      * split; [|done]. intros _. split; [done|]. by apply IH.
Qed.

Lemma lastWrite_Some ws k ty :
  lastWrite ws k = Some ty → (k, ty) ∈ ws.
Proof.
  induction ws as [|[k' ty'] ws IH]; simpl; [done|].
  destruct (lastWrite ws k) eqn:E.
  - intros [= <-]. right. by apply IH.
  - destruct (decide (k' = k)) as [<-|]; [|done].
    intros [= <-]. left.
Qed.

(** The table after the writes of pass 2, key by key: a holiday stays a
    holiday; any other key holds the tag of the last write under it, or what
    it held if there was none. *)
Lemma guardedWrites_lookup ws m k :
  Forall (fun w => w.2 ≠ StatHolidayHour) ws →
  fold_left guardedWrite ws m !! k
  = if decide (m !! k = Some StatHolidayHour) then Some StatHolidayHour
    else match lastWrite ws k with
         | Some ty => Some ty
         | None => m !! k
         end.
Proof.
  intros Hws. destruct (decide (m !! k = Some StatHolidayHour)) as [Hk|Hk].
  { by apply guardedWrites_holiday. }
  induction ws as [|w ws IH] using rev_ind; [done|].
  apply Forall_app in Hws as [Hws Hw]. inversion Hw as [|? ? Hw' _]; subst.
  specialize (IH Hws).
  rewrite fold_left_app, lastWrite_snoc. cbn [fold_left].
  assert (Hm1 : fold_left guardedWrite ws m !! k ≠ Some StatHolidayHour).
  { intros H. apply Hk. by apply (guardedWrites_no_new_holiday ws). }
  destruct (decide (w.1 = k)) as [E|Hne].
  - rewrite <- E in *. by apply guardedWrite_self.
  - by rewrite guardedWrite_other.
Qed.

(** Running the writes of pass 2 a second time changes nothing. *)
Lemma guardedWrites_idempotent ws m :
  Forall (fun w => w.2 ≠ StatHolidayHour) ws →
  fold_left guardedWrite ws (fold_left guardedWrite ws m)
  = fold_left guardedWrite ws m.
Proof.
  intros Hws. apply map_eq. intros k.
  rewrite (guardedWrites_lookup ws (fold_left guardedWrite ws m)) by done.
  destruct (decide _) as [|Hk]; [done|].
  rewrite guardedWrites_lookup in * by done.
  destruct (decide (m !! k = Some StatHolidayHour)); [done|].
  destruct (lastWrite ws k); done.
Qed.

(** Writing the holiday tag under keys that hold it changes nothing. *)
Lemma holidayWrites_id ks m :
  (∀ k, k ∈ ks → m !! k = Some StatHolidayHour) →
  fold_left holidayWrite ks m = m.
Proof.
  revert m. induction ks as [|k ks IH]; intros m Hks; simpl; [done|].
  unfold holidayWrite at 2. rewrite insert_id by (apply Hks; by left).
  apply IH. intros k' Hk'. apply Hks. by right.
Qed.

Lemma rangeWrites_tag start end_ ty :
  Forall (fun w => w.2 = ty) (rangeWrites start end_ ty).
Proof. unfold rangeWrites. apply Forall_fmap, Forall_true. done. Qed.

(** Every write of pass 2 carries the after-hours or the weekend tag. *)
Lemma dayWrites_tags bStart bEnd day :
  Forall (fun w => w.2 = BusinessAfterHour ∨ w.2 = WeekendHour)
    (dayWrites bStart bEnd day).
Proof.
  unfold dayWrites.
  destruct (_ || _); [|destruct (decide _)]; rewrite ?Forall_app;
    repeat split;
    (eapply Forall_impl; [apply rangeWrites_tag|]); simpl; intros ? ->; auto.
Qed.

Lemma pass2Writes_tags c :
  Forall (fun w => w.2 = BusinessAfterHour ∨ w.2 = WeekendHour) (pass2Writes c).
Proof.
  unfold pass2Writes. apply Forall_flat_map, Forall_forall. intros day _.
  apply dayWrites_tags.
Qed.

Lemma pass2Writes_no_holiday c :
  Forall (fun w => w.2 ≠ StatHolidayHour) (pass2Writes c).
Proof.
  eapply Forall_impl; [apply pass2Writes_tags|]. simpl.
  intros w [-> | ->]; done.
Qed.

End TableFacts.

(** ** The calendar that [NewCalendar] returns *)

Section Construction.

Variable w : World.
Variables startDate endDate : Time.
Variable conf : ScheduleConfig.

(** The calendar as [NewCalendar] has it before the two passes. *)
Definition emptyCalendar (loc : Location) : Calendar :=
  mkCalendar (FlattenTime startDate) (FlattenTime endDate)
    (TimeRange.times (FlattenTime startDate) (FlattenTime endDate) (Hour * 24))
    ∅ conf loc.

Lemma NewCalendar_returns cal :
  NewCalendar w startDate endDate conf = Returns cal →
  ∃ loc cals,
    LoadLocation w (Timezone conf) = Some loc
    ∧ GetCalendars w (CalendarURL conf) = Some cals
    ∧ cal = tagAfterhoursAndWeekends (fold_left tagHolidays cals (emptyCalendar loc)).
Proof.
  unfold NewCalendar, parseAndFilterPublicHolidayiCal. cbn [Config].
  destruct (LoadLocation w (Timezone conf)) as [loc|]; [|done].
  destruct (GetCalendars w (CalendarURL conf)) as [cals|]; [|done].
  intros [= <-]. by exists loc, cals.
Qed.

(** The table of the calendar: the keys of pass 1, then the guarded writes
    of pass 2. *)
Lemma NewCalendar_table cal :
  NewCalendar w startDate endDate conf = Returns cal →
  ∃ loc cals,
    LoadLocation w (Timezone conf) = Some loc
    ∧ GetCalendars w (CalendarURL conf) = Some cals
    ∧ CalDays cal = CalDays (emptyCalendar loc)
    ∧ Config cal = conf
    ∧ CalendarHours cal
      = fold_left guardedWrite (pass2Writes (emptyCalendar loc))
          (fold_left holidayWrite (pass1Keys (emptyCalendar loc) cals) ∅).
Proof.
  intros H. apply NewCalendar_returns in H as (loc & cals & Hl & Hc & ->).
  exists loc, cals. rewrite pass1_writes, tagAfterhoursAndWeekends_writes.
  done.
Qed.

End Construction.

(** ** The scenario of the specification

    Schedule in America/Vancouver, business hours 09:00 to 18:00, the feed
    holding the whitelisted all-day event Victoria Day on Monday 2023-05-22
    and an event that is not whitelisted. *)
Module Scenario.

(** The zone table of America/Vancouver around 2023: standard time, daylight
    time from 2023-03-12 10:00 UTC, standard time again from 2023-11-05
    09:00 UTC. *)
Definition Vancouver : Location :=
  mkLocation "America/Vancouver" (-28800)
    [(1678615200, -25200); (1699174800, -28800)].

Definition conf : ScheduleConfig :=
  mkScheduleConfig "America/Vancouver" Vancouver "https://example.org/holidays.ics"
    (mkBusinessHours "2006-01-02 09:00:00" "2006-01-02 18:00:00")
    ["Victoria Day"].

Definition victoriaDay : Event :=
  mkEvent "Victoria Day" (Date 2023 5 22 0 0 0 0 UTC) (Date 2023 5 23 0 0 0 0 UTC).

Definition otherEvent : Event :=
  mkEvent "Some Observance" (Date 2023 5 23 0 0 0 0 UTC) (Date 2023 5 24 0 0 0 0 UTC).

Definition feed : EventsByDates :=
  {[ "2023-05-22 00:00:00" := [victoriaDay];
     "2023-05-23 00:00:00" := [otherEvent] ]}.

Definition world : World :=
  mkWorld (fun name => if String.eqb name "America/Vancouver" then Some Vancouver else None)
          (fun _ => Some [feed]).

(** A local wall-clock instant of May 2023 in Vancouver. *)
Definition may (day hour minute : Z) : Time :=
  Date 2023 5 day hour minute 0 0 Vancouver.

(** The schedule from Friday 2023-05-19 to Wednesday 2023-05-24. *)
Definition built : Outcome Calendar :=
  NewCalendar world (may 19 0 0) (may 24 0 0) conf.

Definition cal : Calendar :=
  match built with
  | Returns c => c
  | Panics _ => emptyCalendar (may 19 0 0) (may 24 0 0) conf UTC
  end.

(** The schedule of one weekend: Saturday 2023-05-20 and Sunday 2023-05-21. *)
Definition builtWeekend : Outcome Calendar :=
  NewCalendar world (may 20 0 0) (may 21 0 0) conf.

Definition weekend : Calendar :=
  match builtWeekend with
  | Returns c => c
  | Panics _ => emptyCalendar (may 20 0 0) (may 21 0 0) conf UTC
  end.

(** The same Friday and Saturday in a location that keeps one offset. *)
Definition PDT : Location := FixedZone "PDT" (-25200).

Definition builtFriday : Outcome Calendar :=
  NewCalendar world (Date 2023 5 19 0 0 0 0 PDT) (Date 2023 5 20 0 0 0 0 PDT) conf.

Definition friday : Calendar :=
  match builtFriday with
  | Returns c => c
  | Panics _ =>
      emptyCalendar (Date 2023 5 19 0 0 0 0 PDT) (Date 2023 5 20 0 0 0 0 PDT) conf UTC
  end.

Lemma built_returns : built = Returns cal.
Proof.
  assert (H : returnsb built = true) by (vm_compute; reflexivity).
  unfold cal. destruct built; [reflexivity|discriminate H].
Qed.

Lemma builtWeekend_returns : builtWeekend = Returns weekend.
Proof.
  assert (H : returnsb builtWeekend = true) by (vm_compute; reflexivity).
  unfold weekend. destruct builtWeekend; [reflexivity|discriminate H].
Qed.

Lemma builtFriday_returns : builtFriday = Returns friday.
Proof.
  assert (H : returnsb builtFriday = true) by (vm_compute; reflexivity).
  unfold friday. destruct builtFriday; [reflexivity|discriminate H].
Qed.

End Scenario.

(** ** Holiday precedence *)

Section HolidayPrecedence.

Lemma filterEvent_Config c c' name :
  Config c = Config c' → filterEvent c name = filterEvent c' name.
Proof. unfold filterEvent. by intros ->. Qed.

Lemma holidayKey_Config c c' t :
  Config c = Config c' → holidayKey c t = holidayKey c' t.
Proof. unfold holidayKey. by intros ->. Qed.

(** The key of an hour of a whitelisted event found under a day of the
    schedule is one of the keys of pass 1. *)
Lemma pass1Keys_event c cals feed day events event hour :
  feed ∈ cals → day ∈ CalDays c →
  feed !! FormatYmdHis (FlattenTime day) = Some events →
  event ∈ events → filterEvent c (GetSummary event) = true →
  hour ∈ TimeRange.times (FlattenTime (GetStart event))
           (Add (FlattenTime (GetEnd event)) (-1 * Hour)) Hour →
  holidayKey c hour ∈ pass1Keys c cals.
Proof.
  intros Hfeed Hday Hevs Hev Hf Hh.
  rewrite times_steps in Hh by apply Hour_pos.
  unfold pass1Keys. apply list_elem_of_In, in_flat_map. exists feed.
  split; [by apply list_elem_of_In|].
  unfold feedKeys. apply in_flat_map. exists day.
  split; [by apply list_elem_of_In|]. rewrite Hevs. simpl.
  unfold eventsKeys. apply in_flat_map. exists event.
  split; [by apply list_elem_of_In|]. rewrite Hf.
  unfold eventKeys. apply in_map, list_elem_of_In. exact Hh.
Qed.

(** C1. Holiday precedence is absolute. A key that holds the
    statutory-holiday tag when pass 2 starts holds it when pass 2 ends, since
    a write of pass 2 that finds the tag under its key leaves the calendar as
    it is; so for every hour of a whitelisted event that pass 1 finds under a
    day of the schedule, [GetHourTag] of the calendar that [NewCalendar]
    returns is statutory-holiday, whatever the weekday. *)
Theorem holiday_precedence w startDate endDate conf cal cals feed day events
    event hour :
  NewCalendar w startDate endDate conf = Returns cal →
  GetCalendars w (CalendarURL conf) = Some cals →
  feed ∈ cals → day ∈ CalDays cal →
  feed !! FormatYmdHis (FlattenTime day) = Some events →
  event ∈ events → filterEvent cal (GetSummary event) = true →
  hour ∈ TimeRange.times (FlattenTime (GetStart event))
           (Add (FlattenTime (GetEnd event)) (-1 * Hour)) Hour →
  (∀ c k, CalendarHours c !! k = Some StatHolidayHour →
          CalendarHours (tagAfterhoursAndWeekends c) !! k = Some StatHolidayHour)
  ∧ (∀ hourType cur c,
       hoursAt c (FormatRFC3339 (FlattenTime cur)) = StatHolidayHour →
       tagUnlessHoliday hourType cur c = c)
  ∧ GetHourTag cal (AdjustForTimezone hour (ParsedTimezone conf)) = StatHolidayHour.
Proof.
  intros Hnew Hcals Hfeed Hday Hevs Hev Hf Hh.
  assert (Hpass2 : ∀ c k, CalendarHours c !! k = Some StatHolidayHour →
            CalendarHours (tagAfterhoursAndWeekends c) !! k = Some StatHolidayHour).
  { intros c k Hk. rewrite tagAfterhoursAndWeekends_writes. simpl.
    by apply guardedWrites_holiday. }
  split; [exact Hpass2|]. split.
  { intros ty cur c Hk. unfold tagUnlessHoliday.
    destruct (decide _) as [Hne|]; [contradiction|reflexivity]. }
  apply NewCalendar_table in Hnew as (loc & cals' & _ & Hc' & Hdays & Hconf & Htab).
  assert (cals' = cals) as -> by congruence.
  unfold GetHourTag. rewrite Htab.
  rewrite guardedWrites_holiday; [reflexivity|].
  apply holidayWrites_in.
  apply (pass1Keys_event (emptyCalendar startDate endDate conf loc) cals feed
           day events event hour); auto.
  - by rewrite <- Hdays.
  - rewrite <- Hf. apply filterEvent_Config. by rewrite Hconf.
Qed.

Lemma holiday_precedence_witness :
  NewCalendar Scenario.world (Scenario.may 19 0 0) (Scenario.may 24 0 0) Scenario.conf
  = Returns Scenario.cal
  ∧ WeekdayOf (Scenario.may 22 0 0) = Monday
  ∧ GetHourTag Scenario.cal
      (AdjustForTimezone (Date 2023 5 22 0 0 0 0 UTC) (ParsedTimezone Scenario.conf))
    = StatHolidayHour.
Proof.
  split; [exact Scenario.built_returns|]. split; [vm_compute; reflexivity|].
  apply (holiday_precedence Scenario.world (Scenario.may 19 0 0)
           (Scenario.may 24 0 0) Scenario.conf Scenario.cal [Scenario.feed]
           Scenario.feed (Scenario.may 22 0 0) [Scenario.victoriaDay]
           Scenario.victoriaDay (Date 2023 5 22 0 0 0 0 UTC)).
  - exact Scenario.built_returns.
  - reflexivity.
  - apply list_elem_of_In. simpl. auto.
  - apply list_elem_of_In. vm_compute. auto 10.
  - vm_compute. reflexivity.
  - apply list_elem_of_In. simpl. auto.
  - vm_compute. reflexivity.
  - apply list_elem_of_In. vm_compute. auto.
Defined.

End HolidayPrecedence.

(** ** Running the classification again *)

Section Idempotence.

Lemma pass1Keys_frame c c' cals :
  Config c = Config c' → CalDays c = CalDays c' →
  pass1Keys c cals = pass1Keys c' cals.
Proof.
  intros HC HD.
  unfold pass1Keys, feedKeys, eventsKeys, eventKeys, holidayKey, filterEvent.
  rewrite HC, HD. reflexivity.
Qed.

Lemma pass2Writes_frame c c' :
  Config c = Config c' → CalDays c = CalDays c' → pass2Writes c = pass2Writes c'.
Proof.
  intros HC HD. unfold pass2Writes.
  assert (GetBusinessHours c = GetBusinessHours c') as ->.
  { unfold GetBusinessHours. by rewrite HC. }
  by rewrite HD.
Qed.

(** C8. Classification is deterministic and idempotent: two calendars built
    from the same schedule window, configuration and feed hold the same hour
    tag table, and running the two passes once more over a built calendar
    leaves its table as it is. *)
Theorem classification_idempotent w startDate endDate conf cal cal' cals :
  NewCalendar w startDate endDate conf = Returns cal →
  NewCalendar w startDate endDate conf = Returns cal' →
  GetCalendars w (CalendarURL conf) = Some cals →
  CalendarHours cal' = CalendarHours cal
  ∧ CalendarHours (tagAfterhoursAndWeekends (fold_left tagHolidays cals cal))
    = CalendarHours cal.
Proof.
  intros Hnew Hnew' Hcals.
  assert (cal' = cal) as -> by congruence.
  split; [reflexivity|].
  apply NewCalendar_table in Hnew as (loc & cals' & _ & Hc' & Hdays & Hconf & Htab).
  assert (cals' = cals) as -> by congruence.
  set (c0 := emptyCalendar startDate endDate conf loc) in *.
  assert (HC : Config cal = Config c0) by (rewrite Hconf; reflexivity).
  rewrite tagAfterhoursAndWeekends_writes, pass1_writes.
  cbn [CalendarHours setHours].
  rewrite (pass2Writes_frame _ c0) by (cbn [Config CalDays setHours]; done).
  rewrite (pass1Keys_frame cal c0) by done.
  rewrite holidayWrites_id.
  - rewrite Htab. apply guardedWrites_idempotent, pass2Writes_no_holiday.
  - intros k Hk. rewrite Htab. apply guardedWrites_holiday.
    by apply holidayWrites_in.
Qed.

Lemma classification_idempotent_witness :
  NewCalendar Scenario.world (Scenario.may 19 0 0) (Scenario.may 24 0 0) Scenario.conf
  = Returns Scenario.cal
  ∧ GetCalendars Scenario.world (CalendarURL Scenario.conf) = Some [Scenario.feed]
  ∧ CalendarHours
      (tagAfterhoursAndWeekends (fold_left tagHolidays [Scenario.feed] Scenario.cal))
    = CalendarHours Scenario.cal.
Proof.
  split; [exact Scenario.built_returns|]. split; [reflexivity|].
  apply (classification_idempotent Scenario.world (Scenario.may 19 0 0)
           (Scenario.may 24 0 0) Scenario.conf Scenario.cal Scenario.cal
           [Scenario.feed]).
  - exact Scenario.built_returns.
  - exact Scenario.built_returns.
  - reflexivity.
Defined.

End Idempotence.

(** ** Business hours that do not parse *)

Section BusinessHoursErrors.

(** The calendar with other business hours in its configuration. *)
Definition withBusinessHours (c : Calendar) (bh : BusinessHoursConfig) : Calendar :=
  mkCalendar (CalStart c) (CalEnd c) (CalDays c) (CalendarHours c)
    (mkScheduleConfig (Timezone (Config c)) (ParsedTimezone (Config c))
       (CalendarURL (Config c)) bh (Holidays (Config c)))
    (CalTimezone c).

Lemma HourOf_zeroTime : HourOf zeroTime = 0.
Proof. vm_compute. reflexivity. Qed.

Lemma HourOf_midnight : HourOf (default zeroTime (ParseYmdHis "2006-01-02 00:00:00")) = 0.
Proof. vm_compute. reflexivity. Qed.

(** Pass 2 reads the business hours only through their hour. *)
Lemma dayWrites_hours bStart bEnd bStart' bEnd' day :
  HourOf bStart = HourOf bStart' → HourOf bEnd = HourOf bEnd' →
  dayWrites bStart bEnd day = dayWrites bStart' bEnd' day.
Proof. unfold dayWrites. by intros -> ->. Qed.

Lemma pass2_same_hours c c' :
  CalDays c = CalDays c' → CalendarHours c = CalendarHours c' →
  HourOf (GetBusinessHours c).1 = HourOf (GetBusinessHours c').1 →
  HourOf (GetBusinessHours c).2 = HourOf (GetBusinessHours c').2 →
  CalendarHours (tagAfterhoursAndWeekends c)
  = CalendarHours (tagAfterhoursAndWeekends c').
Proof.
  intros HD HM H1 H2. rewrite !tagAfterhoursAndWeekends_writes.
  cbn [CalendarHours setHours]. rewrite HM. f_equal.
  unfold pass2Writes. rewrite HD.
  generalize (CalDays c') as days.
  induction days as [|day days IH]; cbn [flat_map]; [done|].
  rewrite IH. f_equal. by apply dayWrites_hours.
Qed.

(** C9. [GetBusinessHours] drops the error of [time.Parse]: a configured
    start or end that does not parse with the layout [2006-01-02 15:04:05]
    comes back as the zero time, whose hour is 0, and pass 2 then tags the
    hours exactly as for a boundary configured at midnight. *)
Theorem GetBusinessHours_parse_error c s :
  ParseYmdHis s = None →
  (bhStart (BusinessHours (Config c)) = s →
     (GetBusinessHours c).1 = zeroTime
     ∧ HourOf (GetBusinessHours c).1 = 0
     ∧ CalendarHours (tagAfterhoursAndWeekends c)
       = CalendarHours
           (tagAfterhoursAndWeekends
              (withBusinessHours c
                 (mkBusinessHours "2006-01-02 00:00:00"
                    (bhEnd (BusinessHours (Config c)))))))
  ∧ (bhEnd (BusinessHours (Config c)) = s →
     (GetBusinessHours c).2 = zeroTime
     ∧ HourOf (GetBusinessHours c).2 = 0
     ∧ CalendarHours (tagAfterhoursAndWeekends c)
       = CalendarHours
           (tagAfterhoursAndWeekends
              (withBusinessHours c
                 (mkBusinessHours (bhStart (BusinessHours (Config c)))
                    "2006-01-02 00:00:00")))).
Proof.
  intros Hs. split; intros Hc.
  - assert (H1 : (GetBusinessHours c).1 = zeroTime).
    { unfold GetBusinessHours. cbn [fst]. by rewrite Hc, Hs. }
    split; [exact H1|]. split; [rewrite H1; apply HourOf_zeroTime|].
    apply pass2_same_hours; try reflexivity.
    rewrite H1, HourOf_zeroTime. symmetry. apply HourOf_midnight.
  - assert (H2 : (GetBusinessHours c).2 = zeroTime).
    { unfold GetBusinessHours. cbn [snd]. by rewrite Hc, Hs. }
    split; [exact H2|]. split; [rewrite H2; apply HourOf_zeroTime|].
    apply pass2_same_hours; try reflexivity.
    rewrite H2, HourOf_zeroTime. symmetry. apply HourOf_midnight.
Qed.

Lemma GetBusinessHours_parse_error_witness :
  ParseYmdHis "09:00:00" = None
  ∧ HourOf
      (GetBusinessHours
         (withBusinessHours Scenario.cal
            (mkBusinessHours "09:00:00" "2006-01-02 18:00:00"))).1 = 0.
Proof.
  split; [vm_compute; reflexivity|].
  refine (proj1 (proj2 (proj1
    (GetBusinessHours_parse_error
       (withBusinessHours Scenario.cal
          (mkBusinessHours "09:00:00" "2006-01-02 18:00:00"))
       "09:00:00" _) eq_refl))).
  vm_compute. reflexivity.
Defined.

End BusinessHoursErrors.

(** ** The tag lookup *)

Section Lookup.

Transparent FormatRFC3339 FlattenTime Date.

(** The RFC3339 text shows the instant to the second and the location's
    offset: it reads nothing else of the time. *)
Lemma FormatRFC3339_ext t u :
  Unix t = Unix u → tLoc t = tLoc u → FormatRFC3339 t = FormatRFC3339 u.
Proof.
  intros HU HL.
  assert (HZ : Zone t = Zone u) by (unfold Zone; by rewrite HU, HL).
  unfold FormatRFC3339, formatDate, formatClock, Date_of, Clock, localSec.
  by rewrite HU, HZ.
Qed.

Lemma tLoc_Date y mo d h mi s ns l : tLoc (Date y mo d h mi s ns l) = l.
Proof. unfold Date. by destruct (zoneLookup l _) as [[? ?] ?]. Qed.

Lemma tLoc_FlattenTime t : tLoc (FlattenTime t) = tLoc t.
Proof.
  unfold FlattenTime. destruct (Date_of t) as [[y m] d].
  destruct (Clock t) as [[h ?] ?]. apply tLoc_Date.
Qed.

Opaque FormatRFC3339 FlattenTime Date.


(** C10. The keys of the table carry the UTC offset, so the lookup depends
    on the location a timestamp is presented in: Saturday 2023-05-20 10:00
    in Vancouver is found and tagged weekend, the same instant presented in
    UTC (17:00Z) is not found and comes back as a business hour. *)
Theorem GetHourTag_representation_sensitive :
  ∃ w startDate endDate conf c t1 t2,
    NewCalendar w startDate endDate conf = Returns c
    ∧ unixNano t1 = unixNano t2
    ∧ tLoc t1 ≠ tLoc t2
    ∧ CalendarHours c !! FormatRFC3339 t1 = Some WeekendHour
    ∧ GetHourTag c t1 = WeekendHour
    ∧ CalendarHours c !! FormatRFC3339 t2 = None
    ∧ GetHourTag c t2 = BusinessHour.
Proof.
  exists Scenario.world, (Scenario.may 19 0 0), (Scenario.may 24 0 0),
    Scenario.conf, Scenario.cal, (Scenario.may 20 10 0),
    (In (Scenario.may 20 10 0) UTC).
  split; [exact Scenario.built_returns|].
  split; [reflexivity|].
  split; [vm_compute; discriminate|].
  repeat split; vm_compute; reflexivity.
Qed.

End Lookup.

(** ** The days of the schedule *)

Section Days.

Lemma count_le start end_ step k :
  0 < step →
  (k < count start end_ step)%nat
  ↔ unixNano start + Z.of_nat k * step ≤ unixNano end_.
Proof.
  intros Hs. unfold count.
  set (d := unixNano end_ - unixNano start).
  assert (Hd : d = step * (d / step) + d mod step) by (apply Z.div_mod; lia).
  assert (Hm : 0 ≤ d mod step < step) by (apply Z.mod_pos_bound; lia).
  split; intros H.
  - assert (Z.of_nat k ≤ d / step) by lia. nia.
  - assert (Z.of_nat k * step ≤ d) by lia.
    assert (Z.of_nat k ≤ d / step) by (apply Z.div_le_lower_bound; lia).
    lia.
Qed.

(** C5, as the code has it. [NewCalendar] flattens the start and the end to
    the hour (not to midnight) and fills [CalDays] with the instants 24
    hours apart from the flattened start up to and including the flattened
    end: the start is an entry, and so is the end when it lies a whole
    number of 24-hour steps after it. *)
Theorem NewCalendar_CalDays w startDate endDate conf cal :
  NewCalendar w startDate endDate conf = Returns cal →
  unixNano (FlattenTime startDate) ≤ unixNano (FlattenTime endDate) →
  CalStart cal = FlattenTime startDate
  ∧ CalEnd cal = FlattenTime endDate
  ∧ (∀ day, day ∈ CalDays cal
            ↔ ∃ k : nat, day = Add (FlattenTime startDate) (Z.of_nat k * (Hour * 24))
                         ∧ unixNano day ≤ unixNano (FlattenTime endDate))
  ∧ (∀ i day, CalDays cal !! i = Some day →
              day = Add (FlattenTime startDate) (Z.of_nat i * (Hour * 24)))
  ∧ FlattenTime startDate ∈ CalDays cal
  ∧ ((unixNano (FlattenTime endDate) - unixNano (FlattenTime startDate))
       mod (Hour * 24) = 0 →
     ∃ day, day ∈ CalDays cal ∧ unixNano day = unixNano (FlattenTime endDate)).
Proof.
  intros Hnew Hle.
  assert (Hstep : 0 < Hour * 24) by reflexivity.
  set (fS := FlattenTime startDate) in *. set (fE := FlattenTime endDate) in *.
  assert (Hdays : CalDays cal = stepsList fS (Hour * 24) (count fS fE (Hour * 24))).
  { apply NewCalendar_table in Hnew as (loc & cals & _ & _ & -> & _).
    apply times_steps, Hstep. }
  assert (Hmem : ∀ day, day ∈ CalDays cal
            ↔ ∃ k : nat, day = Add fS (Z.of_nat k * (Hour * 24))
                         ∧ unixNano day ≤ unixNano fE).
  { intros day. rewrite Hdays, elem_of_stepsList. split.
    - intros (k & Hk & ->). exists k. split; [done|].
      apply (count_le fS fE (Hour * 24) k Hstep) in Hk. exact Hk.
    - intros (k & -> & Hk). exists k. split; [|done].
      apply (count_le fS fE (Hour * 24) k Hstep). exact Hk. }
  split. { apply NewCalendar_returns in Hnew as (? & ? & _ & _ & ->).
           rewrite tagAfterhoursAndWeekends_writes, pass1_writes. reflexivity. }
  split. { apply NewCalendar_returns in Hnew as (? & ? & _ & _ & ->).
           rewrite tagAfterhoursAndWeekends_writes, pass1_writes. reflexivity. }
  split; [exact Hmem|]. split; [|split].
  - intros i day. rewrite Hdays. unfold stepsList. rewrite list_lookup_fmap.
    intros H. apply fmap_Some in H as (k & Hk & ->).
    apply lookup_seq in Hk as [-> _]. reflexivity.
  - apply Hmem. exists O. rewrite Z.mul_0_l, Add_0. split; [done|exact Hle].
  - intros Hmod.
    set (n := (unixNano fE - unixNano fS) / (Hour * 24)).
    assert (Hn : unixNano fE - unixNano fS = Hour * 24 * n)
      by (unfold n; apply Z.div_exact; [lia|exact Hmod]).
    assert (0 ≤ n) by (apply Z.div_pos; lia).
    exists (Add fS (Z.of_nat (Z.to_nat n) * (Hour * 24))).
    assert (Hu : unixNano (Add fS (Z.of_nat (Z.to_nat n) * (Hour * 24))) = unixNano fE).
    { unfold Add. cbn [unixNano]. rewrite Z2Nat.id by done. lia. }
    split; [|exact Hu]. apply Hmem. exists (Z.to_nat n). split; [done|lia].
Qed.

Lemma NewCalendar_CalDays_witness :
  NewCalendar Scenario.world (Scenario.may 19 0 0) (Scenario.may 24 0 0) Scenario.conf
  = Returns Scenario.cal
  ∧ unixNano (FlattenTime (Scenario.may 19 0 0))
    ≤ unixNano (FlattenTime (Scenario.may 24 0 0))
  ∧ FlattenTime (Scenario.may 19 0 0) ∈ CalDays Scenario.cal.
Proof.
  split; [exact Scenario.built_returns|]. split; [vm_compute; discriminate|].
  refine (proj1 (proj2 (proj2 (proj2 (proj2
    (NewCalendar_CalDays Scenario.world (Scenario.may 19 0 0)
       (Scenario.may 24 0 0) Scenario.conf Scenario.cal
       Scenario.built_returns _)))))).
  vm_compute. discriminate.
Defined.

(** The schedule from 2023-05-19 to 2023-05-24 holds the 24th among its
    days, and a start at 10:30 is flattened to 10:00, not to midnight. *)
Lemma NewCalendar_end_date_included :
  FormatRFC3339 <$> CalDays Scenario.cal
  = ["2023-05-19T00:00:00-07:00"; "2023-05-20T00:00:00-07:00";
     "2023-05-21T00:00:00-07:00"; "2023-05-22T00:00:00-07:00";
     "2023-05-23T00:00:00-07:00"; "2023-05-24T00:00:00-07:00"]
  ∧ FormatRFC3339 (FlattenTime (Scenario.may 24 0 0)) = "2023-05-24T00:00:00-07:00"
  ∧ FlattenTime (Scenario.may 24 0 0) ∈ CalDays Scenario.cal
  ∧ FormatRFC3339
      (CalStart (emptyCalendar (Scenario.may 19 10 30) (Scenario.may 24 0 0)
                   Scenario.conf Scenario.Vancouver))
    = "2023-05-19T10:00:00-07:00".
Proof.
  split; [vm_compute; reflexivity|]. split; [vm_compute; reflexivity|].
  split; [|vm_compute; reflexivity].
  apply list_elem_of_In. vm_compute. auto 10.
Qed.

End Days.

(** ** The calendar arithmetic of a location without transitions *)

Section Civil.

(** [checkBelow P n]: [P] holds of 0, 1, ..., n-1. *)
Definition checkBelow (P : Z → bool) (n : N) : bool :=
  (N.iter n (fun '(z, ok) => (z + 1, ok && P z)) (0, true)).2.

Lemma checkBelow_spec P n :
  checkBelow P n = true → ∀ z, 0 ≤ z < Z.of_N n → P z = true.
Proof.
  unfold checkBelow.
  assert (H : ∀ n, (N.iter n (fun '(z, ok) => (z + 1, ok && P z)) (0, true)).1
                   = Z.of_N n
                 ∧ ((N.iter n (fun '(z, ok) => (z + 1, ok && P z)) (0, true)).2
                    = true → ∀ z, 0 ≤ z < Z.of_N n → P z = true)).
  { clear n. induction n as [|n [IH1 IH2]] using N.peano_ind.
    - split; [reflexivity|]. intros _ z Hz. simpl in Hz. lia.
    - rewrite N.iter_succ.
      destruct (N.iter n _ _) as [z0 ok]. simpl in *. subst z0.
      split; [lia|]. intros Hok z Hz.
      apply andb_true_iff in Hok as [Hok HP].
      destruct (decide (z = Z.of_N n)) as [->|]; [exact HP|].
      apply IH2; [exact Hok|lia]. }
  apply H.
Qed.

(** One 400-year era, day by day: the year of era, the month and the day
    are in range and lead back to the day of era. *)
Definition civilOfDoe_ok (doe : Z) : bool :=
  let '(yoe, m, d) := civilOfDoe doe in
  (0 <=? yoe) && (yoe <=? 399) && (1 <=? m) && (m <=? 12)
  && (1 <=? d) && (d <=? 31) && (doeOfCivil yoe m d =? doe).

Lemma civilOfDoe_era : checkBelow civilOfDoe_ok 146097 = true.
Proof. vm_compute. reflexivity. Qed.

Lemma civilOfDoe_inv doe yoe m d :
  0 ≤ doe < 146097 → civilOfDoe doe = (yoe, m, d) →
  0 ≤ yoe ≤ 399 ∧ 1 ≤ m ≤ 12 ∧ 1 ≤ d ≤ 31 ∧ doeOfCivil yoe m d = doe.
Proof.
  intros Hdoe Hc.
  pose proof (checkBelow_spec _ _ civilOfDoe_era doe Hdoe) as H.
  unfold civilOfDoe_ok in H. rewrite Hc in H.
  repeat (apply andb_true_iff in H as [H ?]). lia.
Qed.

Lemma civilFromDays_inv z y m d :
  civilFromDays z = (y, m, d) →
  1 ≤ m ≤ 12 ∧ 1 ≤ d ≤ 31 ∧ daysFromCivil y m d = z
  ∧ 400 * ((z + 719468) / 146097) ≤ y ≤ 400 * ((z + 719468) / 146097) + 400.
Proof.
  unfold civilFromDays.
  set (z' := z + 719468).
  assert (Hdoe : 0 ≤ z' mod 146097 < 146097) by (apply Z.mod_pos_bound; lia).
  destruct (civilOfDoe (z' mod 146097)) as [[yoe m0] d0] eqn:Hc.
  intros [= <- <- <-].
  destruct (civilOfDoe_inv _ _ _ _ Hdoe Hc) as (Hy & Hm & Hd & Hback).
  split; [exact Hm|]. split; [exact Hd|]. split.
  - unfold daysFromCivil.
    replace (yoe + z' / 146097 * 400 + (if m0 <=? 2 then 1 else 0)
             - (if m0 <=? 2 then 1 else 0))
      with (yoe + z' / 146097 * 400) by lia.
    rewrite Z.div_add, Z.mod_add by lia.
    rewrite Z.div_small, Z.mod_small by lia.
    rewrite Hback.
    pose proof (Z.div_mod z' 146097 ltac:(lia)). lia.
  - destruct (m0 <=? 2); lia.
Qed.

End Civil.

(** ** Keys are injective *)

Section Keys.

Transparent FormatRFC3339 FlattenTime Date.

Lemma append_inj_length (a a' b b' : string) :
  String.length a = String.length a' →
  a +:+ b = a' +:+ b' → a = a' ∧ b = b'.
Proof.
  revert a'. induction a as [|c a IH]; intros [|c' a'] Hl H; simpl in *;
    try discriminate.
  - done.
  - injection H as -> H. injection Hl as Hl.
    destruct (IH a' Hl H) as [-> ->]. done.
Qed.

Lemma length_append (a b : string) :
  String.length (a +:+ b) = (String.length a + String.length b)%nat.
Proof. induction a as [|c a IH]; simpl; [done|]. by rewrite IH. Qed.

(** A field of the layout at its width: the text has that length and reads
    back as the number. *)
Definition appendInt_ok (width : nat) (x : Z) : bool :=
  (String.length (appendInt x width) =? width)%nat
  && (atoiDigits (appendInt x width) 0 =? x).

Lemma appendInt_ok_2 : checkBelow (appendInt_ok 2) 100 = true.
Proof. vm_compute. reflexivity. Qed.

Lemma appendInt_ok_4 : checkBelow (appendInt_ok 4) 10000 = true.
Proof. vm_compute. reflexivity. Qed.

Lemma appendInt_2 x :
  0 ≤ x < 100 →
  String.length (appendInt x 2) = 2%nat ∧ atoiDigits (appendInt x 2) 0 = x.
Proof.
  intros Hx. pose proof (checkBelow_spec _ _ appendInt_ok_2 x Hx) as H.
  apply andb_true_iff in H as [H1 H2].
  apply Nat.eqb_eq in H1. apply Z.eqb_eq in H2. done.
Qed.

Lemma appendInt_4 x :
  0 ≤ x < 10000 →
  String.length (appendInt x 4) = 4%nat ∧ atoiDigits (appendInt x 4) 0 = x.
Proof.
  intros Hx. pose proof (checkBelow_spec _ _ appendInt_ok_4 x Hx) as H.
  apply andb_true_iff in H as [H1 H2].
  apply Nat.eqb_eq in H1. apply Z.eqb_eq in H2. done.
Qed.

(** Three fields, the first of width 4 or 2, the others of width 2, with a
    separator between them: equal texts have equal fields. *)
Lemma fields_inj (w : nat) (sep1 sep2 : string) a b c a' b' c' rest rest' :
  String.length (appendInt a w) = String.length (appendInt a' w) →
  atoiDigits (appendInt a w) 0 = a → atoiDigits (appendInt a' w) 0 = a' →
  0 ≤ b < 100 → 0 ≤ c < 100 → 0 ≤ b' < 100 → 0 ≤ c' < 100 →
  String.length sep1 = 1%nat → String.length sep2 = 1%nat →
  (appendInt a w +:+ sep1 +:+ appendInt b 2 +:+ sep2 +:+ appendInt c 2) +:+ rest
  = (appendInt a' w +:+ sep1 +:+ appendInt b' 2 +:+ sep2 +:+ appendInt c' 2) +:+ rest' →
  a = a' ∧ b = b' ∧ c = c' ∧ rest = rest'.
Proof.
  intros Hla Ha Ha' Hb Hc Hb' Hc' Hs1 Hs2 H.
  destruct (appendInt_2 b Hb) as [Lb Vb]. destruct (appendInt_2 b' Hb') as [Lb' Vb'].
  destruct (appendInt_2 c Hc) as [Lc Vc]. destruct (appendInt_2 c' Hc') as [Lc' Vc'].
  apply append_inj_length in H as [H ->];
    [|rewrite !length_append; lia].
  apply append_inj_length in H as [Ea H]; [|exact Hla].
  apply append_inj_length in H as [_ H]; [|done].
  apply append_inj_length in H as [Eb H]; [|lia].
  apply append_inj_length in H as [_ Ec]; [|done].
  repeat split; congruence.
Qed.

(** The instants whose civil year has four digits: from 0000-03-01 to
    9600-02-29 on the wall clock. *)
Definition fourDigitYear (t : Time) : Prop :=
  0 ≤ localSec t / secondsPerDay + 719468 < 146097 * 24.

(** Within those years the RFC3339 text determines the wall clock. *)
Lemma FormatRFC3339_localSec t u :
  fourDigitYear t → fourDigitYear u →
  FormatRFC3339 t = FormatRFC3339 u → localSec t = localSec u.
Proof.
  unfold fourDigitYear, FormatRFC3339, formatDate, formatClock, Date_of, Clock.
  set (L := localSec t). set (L' := localSec u). unfold secondsPerDay.
  intros Ht Hu.
  destruct (civilFromDays (L / 86400)) as [[y m] d] eqn:Hc.
  destruct (civilFromDays (L' / 86400)) as [[y' m'] d'] eqn:Hc'.
  apply civilFromDays_inv in Hc as (Hm & Hd & Hz & Hy).
  apply civilFromDays_inv in Hc' as (Hm' & Hd' & Hz' & Hy').
  assert (He : 0 ≤ (L / 86400 + 719468) / 146097 < 24)
    by (split; [apply Z.div_pos|apply Z.div_lt_upper_bound]; lia).
  assert (He' : 0 ≤ (L' / 86400 + 719468) / 146097 < 24)
    by (split; [apply Z.div_pos|apply Z.div_lt_upper_bound]; lia).
  assert (HL : 0 ≤ L mod 86400 < 86400) by (apply Z.mod_pos_bound; lia).
  assert (HL' : 0 ≤ L' mod 86400 < 86400) by (apply Z.mod_pos_bound; lia).
  set (r := L mod 86400) in *. set (r' := L' mod 86400) in *.
  destruct (appendInt_4 y ltac:(lia)) as [Ly Vy].
  destruct (appendInt_4 y' ltac:(lia)) as [Ly' Vy'].
  intros H.
  assert (Hh : 0 ≤ r / 3600 < 100)
    by (split; [apply Z.div_pos|apply Z.div_lt_upper_bound]; lia).
  assert (Hh' : 0 ≤ r' / 3600 < 100)
    by (split; [apply Z.div_pos|apply Z.div_lt_upper_bound]; lia).
  assert (Hmi : 0 ≤ r mod 3600 / 60 < 100).
  { pose proof (Z.mod_pos_bound r 3600 ltac:(lia)) as Hb.
    split; [apply Z.div_pos|apply Z.div_lt_upper_bound]; lia. }
  assert (Hmi' : 0 ≤ r' mod 3600 / 60 < 100).
  { pose proof (Z.mod_pos_bound r' 3600 ltac:(lia)) as Hb.
    split; [apply Z.div_pos|apply Z.div_lt_upper_bound]; lia. }
  assert (Hs : 0 ≤ r mod 60 < 100) by (pose proof (Z.mod_pos_bound r 60); lia).
  assert (Hs' : 0 ≤ r' mod 60 < 100) by (pose proof (Z.mod_pos_bound r' 60); lia).
  apply (fields_inj 4 "-" "-") in H
    as (-> & -> & -> & H); try done; try lia.
  injection H as H. cbn [String.append] in H.
  destruct (appendInt_2 _ Hh) as [Lh Vh]. destruct (appendInt_2 _ Hh') as [Lh' Vh'].
  apply (fields_inj 2 ":" ":") in H
    as (Eh & Emi & Es & _); try done; try lia.
  assert (Er : r = r').
  { pose proof (Z.div_mod r 3600 ltac:(lia)) as D1.
    pose proof (Z.div_mod r' 3600 ltac:(lia)) as D2.
    pose proof (Z.div_mod (r mod 3600) 60 ltac:(lia)) as D3.
    pose proof (Z.div_mod (r' mod 3600) 60 ltac:(lia)) as D4.
    rewrite Z.mod_mod_divide in D3, D4 by (exists 60; reflexivity). lia. }
  pose proof (Z.div_mod L 86400 ltac:(lia)) as D1.
  pose proof (Z.div_mod L' 86400 ltac:(lia)) as D2.
  fold r in D1. fold r' in D2. lia.
Qed.

Opaque FormatRFC3339 FlattenTime Date.

End Keys.


(** ** The clock *)

Section ClockFacts.

(** The hour of the clock is an hour of the day. *)
Lemma HourOf_range t : 0 ≤ HourOf t ≤ 23.
Proof.
  unfold HourOf, Clock, secondsPerDay. cbn [fst].
  pose proof (Z.mod_pos_bound (localSec t) 86400 ltac:(lia)) as B.
  split; [apply Z.div_pos; lia|].
  assert (localSec t mod 86400 / 3600 < 24)
    by (apply Z.div_lt_upper_bound; lia).
  lia.
Qed.

End ClockFacts.

(** ** The writes of pass 2, hour by hour *)

Section Pass2Hours.

Lemma lastWrite_const ws k ty ty' :
  Forall (fun w => w.2 = ty) ws → (k, ty') ∈ ws → lastWrite ws k = Some ty.
Proof.
  intros Hws Hk. destruct (lastWrite ws k) as [ty''|] eqn:E.
  - apply lastWrite_Some in E. rewrite Forall_forall in Hws.
    apply Hws in E. simpl in E. by rewrite E.
  - apply lastWrite_None in E. exfalso. apply E.
    apply list_elem_of_fmap. exists (k, ty'). done.
Qed.

Lemma Add_eq t a b : a = b → Add t a = Add t b.
Proof. by intros ->. Qed.

(** A write of a range is the write of one of its hours. *)
Lemma elem_of_rangeWrites w start end_ ty :
  w ∈ rangeWrites start end_ ty
  ↔ ∃ i : nat, w = (hourKey (Add start (Z.of_nat i * Hour)), ty)
               ∧ unixNano start + Z.of_nat i * Hour ≤ unixNano end_.
Proof.
  unfold rangeWrites. rewrite list_elem_of_fmap. split.
  - intros (t & -> & Ht). apply elem_of_stepsList in Ht as (i & Hi & ->).
    exists i. split; [done|]. by apply (count_le start end_ Hour i Hour_pos).
  - intros (i & -> & Hi). exists (Add start (Z.of_nat i * Hour)).
    split; [done|]. apply elem_of_stepsList. exists i. split; [|done].
    by apply (count_le start end_ Hour i Hour_pos).
Qed.

(** Every write of a day falls on one of the hours 0 to 24 after the day's
    instant. *)
Lemma dayWrites_hour bStart bEnd day w :
  w ∈ dayWrites bStart bEnd day →
  ∃ n, 0 ≤ n ≤ 24 ∧ w.1 = hourKey (Add day (n * Hour)).
Proof.
  pose proof (HourOf_range bStart) as HS. pose proof (HourOf_range bEnd) as HE.
  assert (HH : Hour = 3600000000000) by reflexivity.
  assert (Hev : ∀ last ty, 0 ≤ last ≤ 24 →
            w ∈ rangeWrites (Add day (Hour * HourOf bEnd))
                  (Add day (Hour * last)) ty →
            ∃ n, 0 ≤ n ≤ 24 ∧ w.1 = hourKey (Add day (n * Hour))).
  { intros last ty Hlast (i & -> & Hi)%elem_of_rangeWrites.
    exists (HourOf bEnd + Z.of_nat i).
    unfold Add in Hi. cbn [unixNano] in Hi. rewrite HH in Hi.
    split; [lia|]. cbn [fst]. rewrite Add_Add.
    rewrite (Add_eq day (Hour * HourOf bEnd + Z.of_nat i * Hour)
               ((HourOf bEnd + Z.of_nat i) * Hour)) by lia.
    reflexivity. }
  assert (Hmo : ∀ last ty, 0 ≤ last ≤ 24 →
            w ∈ rangeWrites day (Add day (Hour * last)) ty →
            ∃ n, 0 ≤ n ≤ 24 ∧ w.1 = hourKey (Add day (n * Hour))).
  { intros last ty Hlast (i & -> & Hi)%elem_of_rangeWrites.
    exists (Z.of_nat i).
    unfold Add in Hi. cbn [unixNano] in Hi. rewrite HH in Hi.
    split; [lia|done]. }
  unfold dayWrites. destruct (_ || _).
  - apply Hmo. lia.
  - rewrite elem_of_app. intros [Hw|Hw].
    + revert Hw. apply Hmo. lia.
    + destruct (decide _); revert Hw; apply Hev; lia.
Qed.

(** On a Friday the hours from the end of business to hour 24 are written
    with the weekend tag, after the morning's writes. *)
Lemma dayWrites_friday bStart bEnd day h :
  WeekdayOf day = Friday → HourOf bEnd ≤ h ≤ 24 →
  lastWrite (dayWrites bStart bEnd day) (hourKey (Add day (h * Hour)))
  = Some WeekendHour.
Proof.
  intros Hfri Hh. unfold dayWrites. rewrite Hfri.
  rewrite !bool_decide_eq_false_2 by discriminate. cbn [orb].
  rewrite lastWrite_app.
  destruct (decide (Friday ≠ Friday)) as [Hne|_]; [done|].
  rewrite (lastWrite_const _ _ WeekendHour WeekendHour);
    [reflexivity|apply rangeWrites_tag|].
  apply elem_of_rangeWrites. exists (Z.to_nat (h - HourOf bEnd)). split.
  - rewrite Z2Nat.id by lia. rewrite Add_Add.
    rewrite (Add_eq day (Hour * HourOf bEnd + (h - HourOf bEnd) * Hour)
               (h * Hour)) by lia.
    reflexivity.
  - unfold Add. cbn [unixNano].
    assert (HH : Hour = 3600000000000) by reflexivity.
    rewrite Z2Nat.id, HH by lia. lia.
Qed.

End Pass2Hours.

(** ** Where the ranges of pass 2 end *)

Section RangeEnds.

Lemma rangeWrites_last start n ty :
  0 ≤ n →
  (hourKey (Add start (Hour * n)), ty) ∈ rangeWrites start (Add start (Hour * n)) ty.
Proof.
  intros Hn. apply elem_of_rangeWrites. exists (Z.to_nat n).
  rewrite Z2Nat.id by lia. split.
  - by rewrite (Add_eq start (n * Hour) (Hour * n)) by lia.
  - unfold Add. cbn [unixNano]. lia.
Qed.

(** C2, what the code does. The morning range of a weekday runs from the
    day's instant to the hour of the start of business and includes it: the
    hour that starts the business hours is written after-hours. In the
    scenario, Tuesday 2023-05-23 09:00 comes back as after-hours, 10:00 as a
    business hour. *)
Theorem weekday_business_start_hour :
  (∀ bStart bEnd day,
     WeekdayOf day ≠ Saturday → WeekdayOf day ≠ Sunday →
     (hourKey (Add day (Hour * HourOf bStart)), BusinessAfterHour)
     ∈ dayWrites bStart bEnd day)
  ∧ WeekdayOf (Scenario.may 23 0 0) = Tuesday
  ∧ HourOf (GetBusinessHours Scenario.cal).1 = 9
  ∧ HourOf (GetBusinessHours Scenario.cal).2 = 18
  ∧ GetHourTag Scenario.cal (Scenario.may 23 8 0) = BusinessAfterHour
  ∧ GetHourTag Scenario.cal (Scenario.may 23 9 0) = BusinessAfterHour
  ∧ GetHourTag Scenario.cal (Scenario.may 23 10 0) = BusinessHour.
Proof.
  split.
  { intros bStart bEnd day Hsat Hsun. unfold dayWrites.
    rewrite !bool_decide_eq_false_2 by done. cbn [orb].
    apply elem_of_app. left. apply rangeWrites_last.
    apply HourOf_range. }
  repeat split; vm_compute; reflexivity.
Qed.

(** C4, what the code does. The ranges of a Saturday, a Sunday and a Friday
    evening run to the day's instant plus 24 hours and include it: the first
    hour of the next day is written with the weekend tag. A schedule of
    Saturday 2023-05-20 and Sunday 2023-05-21 leaves Monday 2023-05-22 00:00
    tagged weekend. *)
Theorem weekend_range_reaches_next_day :
  (∀ bStart bEnd day,
     WeekdayOf day = Saturday ∨ WeekdayOf day = Sunday ∨ WeekdayOf day = Friday →
     ∃ w, w ∈ dayWrites bStart bEnd day
          ∧ w = (hourKey (Add day (Hour * 24)), WeekendHour))
  ∧ FormatRFC3339 <$> CalDays Scenario.weekend
    = ["2023-05-20T00:00:00-07:00"; "2023-05-21T00:00:00-07:00"]
  ∧ FormatRFC3339 (Add (Scenario.may 21 0 0) (Hour * 24))
    = "2023-05-22T00:00:00-07:00"
  ∧ WeekdayOf (Scenario.may 22 0 0) = Monday
  ∧ CalendarHours Scenario.weekend !! "2023-05-22T00:00:00-07:00" = Some WeekendHour
  ∧ GetHourTag Scenario.weekend (Scenario.may 22 0 0) = WeekendHour.
Proof.
  split.
  { intros bStart bEnd day Hday. eexists. split; [|reflexivity].
    unfold dayWrites. destruct Hday as [H|[H|H]]; rewrite H.
    - rewrite bool_decide_eq_true_2 by done. cbn [orb].
      by apply rangeWrites_last.
    - rewrite (bool_decide_eq_true_2 (Sunday = Sunday)) by done.
      rewrite orb_true_r. by apply rangeWrites_last.
    - rewrite !bool_decide_eq_false_2 by done. cbn [orb].
      apply elem_of_app. right.
      destruct (decide (Friday ≠ Friday)) as [Hne|_]; [done|].
      apply elem_of_rangeWrites.
      pose proof (HourOf_range bEnd) as HbE.
      exists (Z.to_nat (24 - HourOf bEnd)). rewrite Z2Nat.id by lia. split.
      + rewrite Add_Add.
        by rewrite (Add_eq day (Hour * HourOf bEnd + (24 - HourOf bEnd) * Hour)
                      (Hour * 24)) by lia.
      + unfold Add. cbn [unixNano]. lia. }
  repeat split; vm_compute; reflexivity.
Qed.

End RangeEnds.


(** ** Stretches of time in which a location keeps one offset *)

(** The location [l] has the offset [off] at every second from [lo] to
    [hi]: no zone transition takes effect in between. *)
Definition steady (l : Location) (off lo hi : Z) : Prop :=
  ∀ s, lo ≤ s ≤ hi → offsetAt l s = off.

(** An instant presented in [l], far enough inside such a stretch for its
    wall clock and its flattened hour to be read there. *)
Definition inside (l : Location) (off lo hi : Z) (t : Time) : Prop :=
  tLoc t = l ∧ lo + 3600 + Z.abs off ≤ Unix t ∧ Unix t + Z.abs off ≤ hi.

(** The minute and the second of [t.Clock()]. *)
Definition MinuteOf (t : Time) : Z := (Clock t).1.2.
Definition SecondOf (t : Time) : Z := (Clock t).2.

(** An instant on an hour boundary of the wall clock at offset [off]. *)
Definition onHourAt (off : Z) (t : Time) : Prop :=
  ∃ n, unixNano t = (3600 * n - off) * Second.

Section Steady.

Transparent FlattenTime Date AdjustForTimezone.

Lemma steady_fixed l lo hi : locTx l = [] → steady l (locZone0 l) lo hi.
Proof. intros Hl s _. unfold offsetAt, zoneLookup. by rewrite Hl. Qed.

Lemma steady_narrow l off lo hi lo' hi' :
  steady l off lo hi → lo ≤ lo' → hi' ≤ hi → steady l off lo' hi'.
Proof. intros H Hlo Hhi s Hs. apply H. lia. Qed.

Lemma Unix_seconds u l : Unix (mkTime (u * Second) l) = u.
Proof. unfold Unix. cbn [unixNano]. apply Z.div_mul. discriminate. Qed.

Variables (l : Location) (off lo hi : Z).
Hypothesis Hst : steady l off lo hi.

Lemma Zone_steady t : inside l off lo hi t → Zone t = off.
Proof. intros (Hl & H1 & H2). unfold Zone. rewrite Hl. apply Hst. lia. Qed.

Lemma localSec_steady t : inside l off lo hi t → localSec t = Unix t + off.
Proof. intros Ht. unfold localSec. by rewrite Zone_steady. Qed.

(** [time.Date] at a wall clock that lies in the stretch. *)
Lemma Date_steady y mo d h :
  1 ≤ mo ≤ 12 →
  lo ≤ daysFromCivil y mo d * 86400 + h * 3600 ≤ hi →
  lo ≤ daysFromCivil y mo d * 86400 + h * 3600 - off ≤ hi →
  Date y mo d h 0 0 0 l
  = mkTime ((daysFromCivil y mo d * 86400 + h * 3600 - off) * Second) l.
Proof.
  intros Hmo H1 H2. unfold Date.
  replace ((mo - 1) / 12) with 0 by (symmetry; apply Z.div_small; lia).
  replace ((mo - 1) mod 12 + 1) with mo by (rewrite Z.mod_small; lia).
  unfold secondsPerDay.
  change (0 / Second) with 0. change (0 mod Second) with 0.
  rewrite (Z.add_0_r y).
  replace (daysFromCivil y mo d * 86400 + h * 3600 + 0 * 60 + 0 + 0)
    with (daysFromCivil y mo d * 86400 + h * 3600) by lia.
  set (u := daysFromCivil y mo d * 86400 + h * 3600) in *.
  pose proof (Hst u H1) as E1. pose proof (Hst (u - off) H2) as E2.
  unfold offsetAt in E1.
  destruct (zoneLookup l u) as [[o zs] ze]. cbn [fst] in E1. subst o.
  f_equal. rewrite Z.add_0_r. f_equal.
  destruct (off =? 0) eqn:E.
  - apply Z.eqb_eq in E. lia.
  - rewrite E2. destruct (_ || _); lia.
Qed.

(** Flattening drops what the wall clock shows beyond the hour. *)
Lemma FlattenTime_steady t :
  inside l off lo hi t →
  FlattenTime t = mkTime (((Unix t + off) / 3600 * 3600 - off) * Second) l.
Proof.
  intros Ht. pose proof (localSec_steady t Ht) as HL.
  destruct Ht as (Hl & H1 & H2).
  unfold FlattenTime, Date_of, Clock, secondsPerDay. rewrite HL, Hl.
  set (L := Unix t + off).
  destruct (civilFromDays (L / 86400)) as [[y m] d] eqn:Hc.
  apply civilFromDays_inv in Hc as (Hm & _ & Hz & _).
  pose proof (Z.div_mod L 86400 ltac:(lia)) as D1.
  pose proof (Z.mod_pos_bound L 86400 ltac:(lia)) as B1.
  pose proof (Z.div_mod (L mod 86400) 3600 ltac:(lia)) as D2.
  pose proof (Z.mod_pos_bound (L mod 86400) 3600 ltac:(lia)) as B2.
  assert (E : L / 3600 = 24 * (L / 86400) + L mod 86400 / 3600).
  { symmetry. apply (Z.div_unique L 3600 _ ((L mod 86400) mod 3600)); lia. }
  pose proof (Z.div_mod L 3600 ltac:(lia)) as D3.
  pose proof (Z.mod_pos_bound L 3600 ltac:(lia)) as B3.
  rewrite Date_steady; rewrite ?Hz; [|exact Hm|unfold L in *; lia|unfold L in *; lia].
  f_equal. lia.
Qed.

Lemma onHourAt_FlattenTime t :
  inside l off lo hi t → onHourAt off (FlattenTime t).
Proof.
  intros Ht. rewrite FlattenTime_steady by done.
  exists ((Unix t + off) / 3600). cbn [unixNano]. lia.
Qed.

Lemma tLoc_FlattenTime_steady t : inside l off lo hi t → tLoc (FlattenTime t) = l.
Proof. intros Ht. by rewrite FlattenTime_steady. Qed.

Lemma Unix_FlattenTime_steady t :
  inside l off lo hi t →
  Unix (FlattenTime t) = (Unix t + off) / 3600 * 3600 - off.
Proof. intros Ht. rewrite FlattenTime_steady by done. apply Unix_seconds. Qed.

Lemma onHourAt_Add t n : onHourAt off t → onHourAt off (Add t (n * Hour)).
Proof.
  intros [k Hk]. exists (k + n). unfold Add. cbn [unixNano].
  rewrite Hk. unfold Hour, Minute, Second. lia.
Qed.

Lemma onHourAt_Unix t : onHourAt off t → ∃ n, Unix t = 3600 * n - off.
Proof.
  intros [n Hn]. exists n. unfold Unix. rewrite Hn.
  apply Z.div_mul. discriminate.
Qed.

Lemma onHourAt_nano t : onHourAt off t → unixNano t = Unix t * Second.
Proof.
  intros [n Hn]. unfold Unix. rewrite Hn, Z.div_mul by discriminate. done.
Qed.

Lemma FlattenTime_onHourAt t :
  inside l off lo hi t → onHourAt off t → FlattenTime t = t.
Proof.
  intros Ht Hon. rewrite FlattenTime_steady by done.
  pose proof (onHourAt_nano t Hon) as Hns.
  destruct (onHourAt_Unix t Hon) as [n Hn].
  rewrite Hn.
  replace (3600 * n - off + off) with (n * 3600) by lia.
  rewrite Z.div_mul by lia.
  destruct Ht as (Hl & _). destruct t as [ns l']. cbn [unixNano tLoc] in *.
  subst l'. f_equal. rewrite Hns, Hn. lia.
Qed.

Lemma Unix_Add_hours t n :
  onHourAt off t → Unix (Add t (n * Hour)) = Unix t + 3600 * n.
Proof.
  intros [k Hk]. unfold Unix, Add. cbn [unixNano]. rewrite Hk.
  replace ((3600 * k - off) * Second + n * Hour)
    with ((3600 * k - off + 3600 * n) * Second)
    by (unfold Hour, Minute, Second; lia).
  rewrite !Z.div_mul by discriminate. lia.
Qed.

(** The adjusted hour shows, on the wall clock of the target location, the
    Unix seconds of the flattened hour it comes from. *)
Lemma AdjustForTimezone_localSec t (f : Time) :
  FlattenTime t = f → unixNano f = Unix f * Second →
  lo ≤ Unix f ≤ hi → lo ≤ Unix f - off ≤ hi →
  tLoc (AdjustForTimezone t l) = l
  ∧ Unix (AdjustForTimezone t l) = Unix f - off
  ∧ localSec (AdjustForTimezone t l) = Unix f.
Proof.
  intros Hf Hns H1 H2. unfold AdjustForTimezone. rewrite Hf.
  assert (HZ : Zone (In f l) = off).
  { unfold Zone, In. cbn [tLoc]. unfold Unix at 1. cbn [unixNano].
    fold (Unix f). by apply Hst. }
  rewrite HZ. split; [reflexivity|].
  assert (HU : Unix (In (Add f (Second * - off)) l) = Unix f - off).
  { unfold Unix at 1, In, Add. cbn [unixNano]. rewrite Hns.
    replace (Unix f * Second + Second * - off) with ((Unix f - off) * Second) by lia.
    apply Z.div_mul. discriminate. }
  split; [exact HU|].
  unfold localSec. rewrite HU. unfold Zone. cbn [tLoc In]. rewrite HU.
  rewrite (Hst _ H2). lia.
Qed.

End Steady.

Opaque FlattenTime Date AdjustForTimezone.

(** ** The tag of every hour of a day of the schedule *)

(** What the writes of one day leave under the key of its hour [h] (0 to
    23), by the branches of [tagAfterhoursAndWeekends]: the weekend tag all
    Saturday and Sunday and from the end of business on Friday, the
    after-hours tag up to and including the hour of the start of business
    and, Monday to Thursday, from the end of business on; nothing in
    between. *)
Definition dayTag (bStart bEnd : Z) (wd : Weekday) (h : Z) : option Z :=
  if bool_decide (wd = Saturday) || bool_decide (wd = Sunday)
  then Some WeekendHour
  else if bool_decide (wd = Friday) then
    if bEnd <=? h then Some WeekendHour
    else if h <=? bStart then Some BusinessAfterHour else None
  else
    if (bEnd <=? h) || (h <=? bStart) then Some BusinessAfterHour else None.

Section Schedule.

Lemma stepsList_lookup start step n i :
  (i < n)%nat → stepsList start step n !! i = Some (Add start (Z.of_nat i * step)).
Proof.
  intros Hi. unfold stepsList. rewrite list_lookup_fmap.
  rewrite lookup_seq_lt by done. reflexivity.
Qed.

Lemma elem_of_drop_stepsList t start step n j :
  t ∈ drop (S j) (stepsList start step n) →
  ∃ j', (j < j' < n)%nat ∧ t = Add start (Z.of_nat j' * step).
Proof.
  intros (i & Hi)%list_elem_of_lookup. rewrite lookup_drop in Hi.
  assert (Hlt : (S j + i < n)%nat).
  { apply lookup_lt_Some in Hi. unfold stepsList in Hi.
    rewrite length_fmap, length_seq in Hi. exact Hi. }
  rewrite stepsList_lookup in Hi by done. injection Hi as <-.
  exists (S j + i)%nat. split; [lia|done].
Qed.

Lemma fourDigitYear_bound t :
  -100000 ≤ localSec t < 200000300000 → fourDigitYear t.
Proof.
  intros Ht. unfold fourDigitYear, secondsPerDay.
  assert (-2 ≤ localSec t / 86400 < 2314819)
    by (split; [apply Z.div_le_lower_bound|apply Z.div_lt_upper_bound]; lia).
  lia.
Qed.

(** What [GetHourTag] finds in a table that pass 2 has written over the
    table of pass 1: the holiday tag, or the tag of the last write of pass
    2 under the key, or the business hour where there is none. *)
Lemma GetHourTag_passes cal ws ks t :
  CalendarHours cal = fold_left guardedWrite ws (fold_left holidayWrite ks ∅) →
  Forall (fun w => w.2 ≠ StatHolidayHour) ws →
  GetHourTag cal t = StatHolidayHour
  ∨ GetHourTag cal t = default BusinessHour (lastWrite ws (FormatRFC3339 t)).
Proof.
  intros Htab Hws. unfold GetHourTag. rewrite Htab.
  rewrite guardedWrites_lookup by exact Hws.
  destruct (decide _) as [|Hn]; [by left|]. right.
  destruct (lastWrite ws (FormatRFC3339 t)); [done|].
  destruct (fold_left holidayWrite ks ∅ !! FormatRFC3339 t) as [v|] eqn:E; [|done].
  apply holidayWrites_only in E as [->|E]; [done|].
  by rewrite lookup_empty in E.
Qed.

Variables (l : Location) (off lo hi : Z) (fS fE : Time).
Hypothesis Hst : steady l off lo hi.
Hypothesis HlS : tLoc fS = l.
Hypothesis HonS : onHourAt off fS.
Hypothesis Hin : lo + 3600 + Z.abs off ≤ Unix fS.
Hypothesis Hout : Unix fE + 86400 + Z.abs off ≤ hi.
Hypothesis Hlo : -100000 ≤ Unix fS + off.
Hypothesis Hhi : Unix fE + off < 200000100000.

Let n := count fS fE (Hour * 24).
Let day (j : nat) := Add fS (Z.of_nat j * (Hour * 24)).
Let hour (j : nat) (h : Z) := Add fS ((24 * Z.of_nat j + h) * Hour).
Let key (j : nat) (h : Z) := FormatRFC3339 (hour j h).

Lemma day_bound j : (j < n)%nat → Unix fS + 86400 * Z.of_nat j ≤ Unix fE.
Proof.
  intros Hj. apply (count_le fS fE (Hour * 24) j eq_refl) in Hj.
  rewrite (onHourAt_nano off fS HonS) in Hj. unfold Unix at 2.
  apply Z.div_le_lower_bound; [reflexivity|].
  assert (HH : Hour * 24 = 86400 * Second) by reflexivity.
  rewrite HH in Hj. lia.
Qed.

(** Hour [x] of day [j] of the schedule. *)
Lemma window_hour j x :
  (j < n)%nat → 0 ≤ x ≤ 24 →
  Add (day j) (x * Hour) = hour j x
  ∧ inside l off lo hi (hour j x)
  ∧ hourKey (hour j x) = key j x
  ∧ Unix (hour j x) = Unix fS + 3600 * (24 * Z.of_nat j + x)
  ∧ localSec (hour j x) = Unix fS + off + 3600 * (24 * Z.of_nat j + x)
  ∧ fourDigitYear (hour j x).
Proof.
  intros Hj Hx. pose proof (day_bound j Hj) as Hb.
  pose proof (Unix_Add_hours off fS (24 * Z.of_nat j + x) HonS) as HU.
  fold (hour j x) in HU.
  assert (Hins : inside l off lo hi (hour j x)).
  { split; [exact HlS|]. rewrite HU. lia. }
  pose proof (localSec_steady l off lo hi Hst _ Hins) as HL.
  split; [unfold day, hour; rewrite Add_Add; apply Add_eq; lia|].
  split; [exact Hins|]. split.
  { unfold hourKey, key.
    rewrite (FlattenTime_onHourAt l off lo hi Hst _ Hins); [done|].
    by apply onHourAt_Add. }
  split; [exact HU|]. split; [rewrite HL, HU; lia|].
  apply fourDigitYear_bound. rewrite HL, HU. lia.
Qed.

(** Two hours of the schedule with one key are one hour. *)
Lemma window_key_inj j x j' x' :
  (j < n)%nat → (j' < n)%nat → 0 ≤ x ≤ 24 → 0 ≤ x' ≤ 24 →
  hourKey (Add (day j) (x * Hour)) = key j' x' →
  24 * Z.of_nat j + x = 24 * Z.of_nat j' + x'.
Proof.
  intros Hj Hj' Hx Hx' Hk.
  destruct (window_hour j x Hj Hx) as (E1 & _ & K1 & _ & S1 & Y1).
  destruct (window_hour j' x' Hj' Hx') as (_ & _ & _ & _ & S2 & Y2).
  rewrite E1, K1 in Hk. unfold key in Hk.
  apply FormatRFC3339_localSec in Hk; [|exact Y1|exact Y2].
  rewrite S1, S2 in Hk. lia.
Qed.

(** One loop of pass 2 over the hours [a] to [b] of day [j] writes under the
    key of hour [h] of that day exactly when [a ≤ h ≤ b]. *)
Lemma range_lastWrite j a b h start ty :
  (j < n)%nat → 0 ≤ a ≤ 24 → 0 ≤ b ≤ 24 → 0 ≤ h ≤ 24 →
  start = Add (day j) (Hour * a) →
  lastWrite (rangeWrites start (Add (day j) (Hour * b)) ty) (key j h)
  = if (a <=? h) && (h <=? b) then Some ty else None.
Proof.
  intros Hj Ha Hb Hh ->.
  assert (HH : Hour = 3600000000000) by reflexivity.
  destruct (window_hour j h Hj Hh) as (E1 & _ & K1 & _).
  destruct ((a <=? h) && (h <=? b)) eqn:E.
  - apply andb_true_iff in E as [E1' E2']. apply Z.leb_le in E1', E2'.
    apply (lastWrite_const _ _ ty ty); [apply rangeWrites_tag|].
    apply elem_of_rangeWrites. exists (Z.to_nat (h - a)).
    rewrite Z2Nat.id by lia. split.
    + rewrite Add_Add.
      rewrite (Add_eq (day j) (Hour * a + (h - a) * Hour) (h * Hour)) by lia.
      by rewrite E1, K1.
    + unfold Add. cbn [unixNano]. rewrite HH. lia.
  - apply lastWrite_None. intros (w0 & Hk & Hw)%list_elem_of_fmap.
    apply elem_of_rangeWrites in Hw as (i & -> & Hi). cbn [fst] in Hk.
    rewrite Add_Add in Hk.
    rewrite (Add_eq (day j) (Hour * a + Z.of_nat i * Hour)
               ((a + Z.of_nat i) * Hour)) in Hk by lia.
    unfold Add in Hi. cbn [unixNano] in Hi. rewrite HH in Hi.
    symmetry in Hk.
    apply (window_key_inj j (a + Z.of_nat i) j h) in Hk; [|done|done|lia|done].
    apply andb_false_iff in E as [E|E]; apply Z.leb_gt in E; lia.
Qed.

(** The writes of day [j] under the key of its hour [h]. *)
Lemma dayWrites_lastWrite bStart bEnd j h :
  (j < n)%nat → 0 ≤ h ≤ 23 →
  lastWrite (dayWrites bStart bEnd (day j)) (key j h)
  = dayTag (HourOf bStart) (HourOf bEnd) (WeekdayOf (day j)) h.
Proof.
  intros Hj Hh.
  pose proof (HourOf_range bStart) as HS. pose proof (HourOf_range bEnd) as HE.
  assert (H0 : day j = Add (day j) (Hour * 0))
    by (rewrite Z.mul_0_r; symmetry; apply Add_0).
  unfold dayWrites, dayTag.
  destruct (bool_decide (WeekdayOf (day j) = Saturday)
            || bool_decide (WeekdayOf (day j) = Sunday)).
  - rewrite (range_lastWrite j 0 24 h) by (try done; lia).
    replace ((0 <=? h) && (h <=? 24)) with true; [done|].
    symmetry. apply andb_true_iff. split; apply Z.leb_le; lia.
  - rewrite lastWrite_app.
    rewrite (range_lastWrite j 0 (HourOf bStart) h) by (try done; lia).
    destruct (decide (WeekdayOf (day j) ≠ Friday)) as [Hne|Heq].
    + rewrite bool_decide_eq_false_2 by done.
      rewrite (range_lastWrite j (HourOf bEnd) 23 h) by (try done; lia).
      destruct (HourOf bEnd <=? h) eqn:E1; destruct (h <=? HourOf bStart) eqn:E2;
        destruct (0 <=? h) eqn:E3; destruct (h <=? 23) eqn:E4;
        try reflexivity;
        apply Z.leb_gt in E3 || apply Z.leb_gt in E4; lia.
    + assert (Hfri : WeekdayOf (day j) = Friday)
        by (destruct (decide (WeekdayOf (day j) = Friday)); [done|contradiction]).
      rewrite bool_decide_eq_true_2 by done.
      rewrite (range_lastWrite j (HourOf bEnd) 24 h) by (try done; lia).
      destruct (HourOf bEnd <=? h) eqn:E1; destruct (h <=? HourOf bStart) eqn:E2;
        destruct (0 <=? h) eqn:E3; destruct (h <=? 24) eqn:E4;
        try reflexivity;
        apply Z.leb_gt in E3 || apply Z.leb_gt in E4; lia.
Qed.

(** The days after day [j] write nothing under the keys of its hours 0 to
    23. *)
Lemma later_days_other_keys bStart bEnd j h :
  (j < n)%nat → 0 ≤ h ≤ 23 →
  lastWrite
    (flat_map (dayWrites bStart bEnd) (drop (S j) (stepsList fS (Hour * 24) n)))
    (key j h)
  = None.
Proof.
  intros Hj Hh. apply lastWrite_None.
  intros (w0 & Hk & Hw)%list_elem_of_fmap.
  apply list_elem_of_In, in_flat_map in Hw as (d' & Hd' & Hw).
  apply list_elem_of_In in Hd', Hw.
  apply elem_of_drop_stepsList in Hd' as (j' & Hj' & ->).
  apply dayWrites_hour in Hw as (i & Hi & Hw).
  rewrite Hw in Hk. symmetry in Hk.
  apply (window_key_inj j' i j h) in Hk; [|lia|done|done|lia]. lia.
Qed.

(** The days before day [j] write nothing under the keys of its hours 1 to
    23: the furthest they reach is its hour 0. *)
Lemma earlier_days_other_keys bStart bEnd j h :
  (j < n)%nat → 1 ≤ h ≤ 23 →
  lastWrite
    (flat_map (dayWrites bStart bEnd) (take j (stepsList fS (Hour * 24) n)))
    (key j h)
  = None.
Proof.
  intros Hj Hh. apply lastWrite_None.
  intros (w0 & Hk & Hw)%list_elem_of_fmap.
  apply list_elem_of_In, in_flat_map in Hw as (d' & Hd' & Hw).
  apply list_elem_of_In in Hd', Hw.
  apply list_elem_of_lookup in Hd' as (j' & Hd').
  apply lookup_take_Some in Hd' as [Hd' Hlt].
  rewrite stepsList_lookup in Hd' by lia. injection Hd' as <-.
  apply dayWrites_hour in Hw as (i & Hi & Hw).
  rewrite Hw in Hk. symmetry in Hk.
  apply (window_key_inj j' i j h) in Hk; [|lia|done|done|lia]. lia.
Qed.

(** All of pass 2, under the key of hour [h] of day [j]. *)
Lemma pass2_lastWrite bStart bEnd j h :
  (j < n)%nat → 0 ≤ h ≤ 23 →
  lastWrite (flat_map (dayWrites bStart bEnd) (stepsList fS (Hour * 24) n))
    (key j h)
  = dayTag (HourOf bStart) (HourOf bEnd) (WeekdayOf (day j)) h.
Proof.
  intros Hj Hh.
  pose proof (HourOf_range bStart) as HS.
  rewrite <- (take_drop_middle (stepsList fS (Hour * 24) n) j (day j))
    by (by apply stepsList_lookup).
  rewrite flat_map_app. cbn [flat_map]. rewrite !lastWrite_app.
  rewrite later_days_other_keys by done.
  rewrite dayWrites_lastWrite by done.
  destruct (dayTag _ _ _ h) eqn:E; [reflexivity|].
  apply earlier_days_other_keys; [done|].
  unfold dayTag in E.
  destruct (_ || _); [discriminate|].
  destruct (bool_decide _).
  - destruct (HourOf bEnd <=? h); [discriminate|].
    destruct (h <=? HourOf bStart) eqn:E2; [discriminate|].
    apply Z.leb_gt in E2. lia.
  - destruct (h <=? HourOf bStart) eqn:E2.
    + rewrite orb_true_r in E. discriminate.
    + apply Z.leb_gt in E2. lia.
Qed.

(** *** A schedule that starts at midnight *)

Hypothesis Hmid : (Unix fS + off) mod 86400 = 0.

(** Hour [h] of day [j] shows the weekday of the day and the hour [h]. *)
Lemma hour_wall j h :
  (j < n)%nat → 0 ≤ h ≤ 23 →
  WeekdayOf (hour j h) = WeekdayOf (day j) ∧ HourOf (hour j h) = h.
Proof.
  intros Hj Hh.
  destruct (window_hour j h Hj ltac:(lia)) as (_ & _ & _ & _ & S1 & _).
  destruct (window_hour j 0 Hj ltac:(lia)) as (E0 & _ & _ & _ & S0 & _).
  rewrite Z.mul_0_l, Add_0 in E0.
  unfold WeekdayOf, HourOf, Clock, secondsPerDay. cbn [fst].
  rewrite E0, S1, S0.
  set (q := (Unix fS + off) / 86400).
  assert (Hq : Unix fS + off = 86400 * q)
    by (unfold q; apply Z.div_exact; [lia|exact Hmid]).
  rewrite Hq.
  replace (86400 * q + 3600 * (24 * Z.of_nat j + h))
    with (3600 * h + (q + Z.of_nat j) * 86400) by lia.
  replace (86400 * q + 3600 * (24 * Z.of_nat j + 0))
    with (0 + (q + Z.of_nat j) * 86400) by lia.
  rewrite !Z.div_add, Z.mod_add by lia.
  rewrite (Z.div_small (3600 * h) 86400), (Z.mod_small (3600 * h) 86400) by lia.
  split; [reflexivity|]. rewrite Z.mul_comm. apply Z.div_mul. lia.
Qed.

(** An instant of the location, within the 24 hours of day [j] and on an
    hour boundary of the wall clock, is the hour [HourOf t] of day [j]. *)
Lemma wall_hour t j :
  tLoc t = l → (j < n)%nat →
  Unix (day j) ≤ Unix t < Unix (day j) + 86400 →
  MinuteOf t = 0 → SecondOf t = 0 →
  0 ≤ HourOf t ≤ 23
  ∧ Unix t = Unix (hour j (HourOf t))
  ∧ WeekdayOf t = WeekdayOf (day j).
Proof.
  intros Hl Hj Ht Hmin Hsec.
  pose proof (HourOf_range t) as Hr. split; [exact Hr|].
  destruct (window_hour j 0 Hj ltac:(lia)) as (E0 & _ & _ & U0 & S0 & _).
  rewrite Z.mul_0_l, Add_0 in E0. rewrite <- E0 in U0, S0.
  destruct (window_hour j (HourOf t) Hj ltac:(lia)) as (_ & _ & _ & U1 & _).
  pose proof (day_bound j Hj) as Hb.
  assert (Hins : inside l off lo hi t) by (split; [exact Hl|lia]).
  pose proof (localSec_steady l off lo hi Hst t Hins) as HL.
  set (q := (Unix fS + off) / 86400).
  assert (Hq : Unix fS + off = 86400 * q)
    by (unfold q; apply Z.div_exact; [lia|exact Hmid]).
  assert (Hd : localSec t / 86400 = q + Z.of_nat j).
  { symmetry. apply (Z.div_unique _ _ _ (localSec t - 86400 * (q + Z.of_nat j))); lia. }
  assert (Hm : localSec t mod 86400 = localSec t - 86400 * (q + Z.of_nat j)).
  { symmetry. apply (Z.mod_unique _ _ (q + Z.of_nat j)); lia. }
  unfold HourOf, MinuteOf, SecondOf, Clock, secondsPerDay in *.
  cbn [fst snd] in *.
  set (r := localSec t mod 86400) in *.
  pose proof (Z.div_mod r 3600 ltac:(lia)) as D1.
  pose proof (Z.mod_pos_bound r 3600 ltac:(lia)) as B1.
  pose proof (Z.div_mod (r mod 3600) 60 ltac:(lia)) as D2.
  pose proof (Z.mod_pos_bound (r mod 3600) 60 ltac:(lia)) as B2.
  assert (Hs60 : (r mod 3600) mod 60 = r mod 60)
    by (apply Z.mod_mod_divide; exists 60; reflexivity).
  split; [rewrite U1; lia|].
  unfold WeekdayOf, secondsPerDay. rewrite Hd, S0.
  replace (Unix fS + off + 3600 * (24 * Z.of_nat j + 0))
    with (0 + (q + Z.of_nat j) * 86400) by lia.
  by rewrite Z.div_add by lia.
Qed.

End Schedule.

(** ** A schedule between two zone transitions *)

(** The schedule from [startDate] to [endDate], both in one location, which
    has the offset [off] from 100000 seconds before the start to 200000
    seconds after the end: no zone transition in the window or within a
    good day of it. *)
Definition steadyWindow (startDate endDate : Time) (off : Z) : Prop :=
  tLoc endDate = tLoc startDate
  ∧ Z.abs off ≤ 86400
  ∧ unixNano startDate ≤ unixNano endDate
  ∧ steady (tLoc startDate) off (Unix startDate - 100000) (Unix endDate + 200000).

Section BuiltSchedule.

Variables (w : World) (startDate endDate : Time) (conf : ScheduleConfig).
Variables (cal : Calendar) (off : Z).
Hypothesis Hnew : NewCalendar w startDate endDate conf = Returns cal.
Hypothesis Hwin : steadyWindow startDate endDate off.
Hypothesis Hlo : 0 ≤ Unix startDate.
Hypothesis Hhi : Unix endDate < 200000000000.

Let l := tLoc startDate.
Let lo := Unix startDate - 100000.
Let hi := Unix endDate + 200000.
Let fS := FlattenTime startDate.
Let fE := FlattenTime endDate.

Lemma Unix_le_of_nano t u : unixNano t ≤ unixNano u → Unix t ≤ Unix u.
Proof. intros H. unfold Unix. apply Z.div_le_mono; [reflexivity|exact H]. Qed.

Lemma window_facts :
  steady l off lo hi
  ∧ tLoc fS = l
  ∧ onHourAt off fS
  ∧ lo + 3600 + Z.abs off ≤ Unix fS
  ∧ Unix fE + 86400 + Z.abs off ≤ hi
  ∧ -100000 ≤ Unix fS + off
  ∧ Unix fE + off < 200000100000
  ∧ (HourOf startDate = 0 → (Unix fS + off) mod 86400 = 0).
Proof.
  destruct Hwin as (HlE & Hoff & Hle & Hst).
  apply Unix_le_of_nano in Hle.
  assert (HinS : inside l off lo hi startDate)
    by (split; [reflexivity|unfold lo, hi; lia]).
  assert (HinE : inside l off lo hi endDate)
    by (split; [exact HlE|unfold lo, hi; lia]).
  pose proof (Unix_FlattenTime_steady l off lo hi Hst _ HinS) as US.
  pose proof (Unix_FlattenTime_steady l off lo hi Hst _ HinE) as UE.
  fold fS in US. fold fE in UE.
  pose proof (Z.div_mod (Unix startDate + off) 3600 ltac:(lia)) as D1.
  pose proof (Z.mod_pos_bound (Unix startDate + off) 3600 ltac:(lia)) as B1.
  pose proof (Z.div_mod (Unix endDate + off) 3600 ltac:(lia)) as D2.
  pose proof (Z.mod_pos_bound (Unix endDate + off) 3600 ltac:(lia)) as B2.
  split; [exact Hst|].
  split; [by apply (tLoc_FlattenTime_steady l off lo hi Hst)|].
  split; [by apply (onHourAt_FlattenTime l off lo hi Hst)|].
  split; [unfold lo; lia|]. split; [unfold hi; lia|].
  split; [lia|]. split; [lia|].
  intros Hh. rewrite US.
  replace ((Unix startDate + off) / 3600 * 3600 - off + off)
    with ((Unix startDate + off) / 3600 * 3600) by lia.
  unfold HourOf, Clock, secondsPerDay in Hh. cbn [fst] in Hh.
  rewrite (localSec_steady l off lo hi Hst _ HinS) in Hh.
  set (L := Unix startDate + off) in *.
  pose proof (Z.div_mod L 86400 ltac:(lia)) as D3.
  pose proof (Z.mod_pos_bound L 86400 ltac:(lia)) as B3.
  pose proof (Z.div_mod (L mod 86400) 3600 ltac:(lia)) as D4.
  pose proof (Z.mod_pos_bound (L mod 86400) 3600 ltac:(lia)) as B4.
  assert (E : L / 3600 = 24 * (L / 86400)).
  { symmetry. apply (Z.div_unique L 3600 _ (L mod 86400)); lia. }
  rewrite E.
  replace (24 * (L / 86400) * 3600) with (L / 86400 * 86400) by lia.
  apply Z.mod_mul. lia.
Qed.

(** The tag of hour [h] of a day of the schedule: the holiday tag, or what
    the branch of pass 2 for the day's weekday leaves there, or the
    business hour. *)
Lemma built_hour_tag day h t :
  day ∈ CalDays cal → 0 ≤ h ≤ 23 →
  tLoc t = tLoc startDate → Unix t = Unix (Add day (Hour * h)) →
  GetHourTag cal t = StatHolidayHour
  ∨ GetHourTag cal t
    = default BusinessHour
        (dayTag (HourOf (GetBusinessHours cal).1) (HourOf (GetBusinessHours cal).2)
           (WeekdayOf day) h).
Proof.
  intros Hday Hh Hlt Hut.
  destruct window_facts as (Hst & HlS & HonS & Hin & Hout & Hlo' & Hhi' & _).
  destruct (NewCalendar_table _ _ _ _ _ Hnew)
    as (loc & cals & _ & _ & Hdays & Hconf & Htab).
  assert (HbH : GetBusinessHours (emptyCalendar startDate endDate conf loc)
                = GetBusinessHours cal).
  { unfold GetBusinessHours. by rewrite Hconf. }
  assert (Hl0 : CalDays (emptyCalendar startDate endDate conf loc)
                = stepsList fS (Hour * 24) (count fS fE (Hour * 24)))
    by (apply times_steps; reflexivity).
  rewrite Hdays, Hl0 in Hday.
  apply elem_of_stepsList in Hday as (j & Hj & ->).
  destruct (window_hour l off lo hi fS fE Hst HlS HonS Hin Hout Hlo' Hhi' j h Hj
              ltac:(lia)) as (E1 & Hins & _).
  rewrite (Add_eq _ (Hour * h) (h * Hour)) in Hut by lia. rewrite E1 in Hut.
  destruct (GetHourTag_passes cal _ _ t Htab (pass2Writes_no_holiday _))
    as [H4|Hlast]; [by left|right].
  rewrite Hlast.
  rewrite (FormatRFC3339_ext t (Add fS ((24 * Z.of_nat j + h) * Hour)) Hut)
    by (rewrite Hlt; symmetry; exact HlS).
  unfold pass2Writes. rewrite HbH, Hl0.
  by rewrite (pass2_lastWrite l off lo hi fS fE Hst HlS HonS Hin Hout Hlo' Hhi').
Qed.

(** In a schedule that starts at midnight, an instant on the hour within the
    24 hours of a day of the schedule is the hour [HourOf t] of that day and
    has its weekday. *)
Lemma built_wall_hour day t :
  HourOf startDate = 0 →
  day ∈ CalDays cal → tLoc t = tLoc startDate →
  Unix day ≤ Unix t < Unix day + 86400 →
  MinuteOf t = 0 → SecondOf t = 0 →
  Unix t = Unix (Add day (Hour * HourOf t)) ∧ WeekdayOf t = WeekdayOf day.
Proof.
  intros Hmid0 Hday Hlt Ht Hmin Hsec.
  destruct window_facts as (Hst & HlS & HonS & Hin & Hout & Hlo' & Hhi' & Hmid).
  specialize (Hmid Hmid0).
  destruct (NewCalendar_table _ _ _ _ _ Hnew)
    as (loc & cals & _ & _ & Hdays & _ & _).
  assert (Hl0 : CalDays (emptyCalendar startDate endDate conf loc)
                = stepsList fS (Hour * 24) (count fS fE (Hour * 24)))
    by (apply times_steps; reflexivity).
  rewrite Hdays, Hl0 in Hday.
  apply elem_of_stepsList in Hday as (j & Hj & ->).
  destruct (wall_hour l off lo hi fS fE Hst HlS HonS Hin Hout Hlo' Hhi' Hmid
              t j Hlt Hj Ht Hmin Hsec) as (Hr & HU & HW).
  destruct (window_hour l off lo hi fS fE Hst HlS HonS Hin Hout Hlo' Hhi' j
              (HourOf t) Hj ltac:(lia)) as (E1 & _).
  split; [|exact HW].
  rewrite (Add_eq _ (Hour * HourOf t) (HourOf t * Hour)) by lia.
  by rewrite E1.
Qed.

End BuiltSchedule.

(** ** Friday evening *)

(** Two more schedules in America/Vancouver: one across the end of daylight
    saving time (Sunday 2023-11-05 to Saturday 2023-11-11), one that starts
    off midnight (Friday 2023-05-19 10:30 to Saturday 10:30). *)
Definition builtNovember : Outcome Calendar :=
  NewCalendar Scenario.world (Date 2023 11 5 0 0 0 0 Scenario.Vancouver)
    (Date 2023 11 11 0 0 0 0 Scenario.Vancouver) Scenario.conf.

Definition november : Calendar :=
  match builtNovember with
  | Returns c => c
  | Panics _ => Scenario.cal
  end.

Definition builtLateStart : Outcome Calendar :=
  NewCalendar Scenario.world (Scenario.may 19 10 30) (Scenario.may 20 10 30)
    Scenario.conf.

Definition lateStart : Calendar :=
  match builtLateStart with
  | Returns c => c
  | Panics _ => Scenario.cal
  end.

Section Friday.

(** America/Vancouver keeps daylight time from 2023-03-12 10:00 UTC until
    2023-11-05 09:00 UTC. *)
Lemma Vancouver_daylight_2023 :
  steady Scenario.Vancouver (-25200) 1678615200 1699174799.
Proof.
  intros s Hs. unfold offsetAt, zoneLookup, Scenario.Vancouver.
  cbn [locTx locZone0 lookupTx].
  destruct (s <? 1678615200) eqn:E1; [apply Z.ltb_lt in E1; lia|].
  destruct (s <? 1699174800) eqn:E2; [reflexivity|].
  apply Z.ltb_ge in E2. lia.
Qed.

Lemma scenario_steadyWindow :
  steadyWindow (Scenario.may 19 0 0) (Scenario.may 24 0 0) (-25200).
Proof.
  assert (EL : tLoc (Scenario.may 19 0 0) = Scenario.Vancouver)
    by (vm_compute; reflexivity).
  assert (ES : Unix (Scenario.may 19 0 0) = 1684479600)
    by (vm_compute; reflexivity).
  assert (EE : Unix (Scenario.may 24 0 0) = 1684911600)
    by (vm_compute; reflexivity).
  split; [vm_compute; reflexivity|]. split; [vm_compute; discriminate|].
  split; [vm_compute; discriminate|].
  rewrite EL, ES, EE.
  apply (steady_narrow _ _ _ _ _ _ Vancouver_daylight_2023); lia.
Qed.




End Friday.

(** ** The tag lookup and the hour of a timestamp *)

Section LookupHour.

Lemma clock_on_hour L :
  (L mod 86400 mod 3600 / 60 = 0 ∧ L mod 86400 mod 60 = 0) ↔ L mod 3600 = 0.
Proof.
  pose proof (Z.div_mod L 86400 ltac:(lia)) as D1.
  pose proof (Z.mod_pos_bound L 86400 ltac:(lia)) as B1.
  set (r := L mod 86400) in *.
  pose proof (Z.div_mod r 3600 ltac:(lia)) as D2.
  pose proof (Z.mod_pos_bound r 3600 ltac:(lia)) as B2.
  pose proof (Z.div_mod (r mod 3600) 60 ltac:(lia)) as D3.
  pose proof (Z.mod_pos_bound (r mod 3600) 60 ltac:(lia)) as B3.
  assert (Hs60 : (r mod 3600) mod 60 = r mod 60)
    by (apply Z.mod_mod_divide; exists 60; reflexivity).
  assert (E : L mod 3600 = r mod 3600).
  { symmetry. apply (Z.mod_unique _ _ (24 * (L / 86400) + r / 3600)); lia. }
  rewrite E. split.
  - intros [H1 H2]. lia.
  - intros H. rewrite H in *. split; [reflexivity|].
    rewrite <- Hs60. reflexivity.
Qed.



End LookupHour.

(** ** The hours of the holiday events *)

(** The instants the loop of pass 1 visits for one event. *)
Definition visitedHours (event : Event) : list Time :=
  TimeRange.times (FlattenTime (GetStart event))
    (Add (FlattenTime (GetEnd event)) (-1 * Hour)) Hour.

(** An event that pass 1 reaches: whitelisted, and listed in a feed calendar
    under the key of a day of the schedule. *)
Definition foundEvent (c : Calendar) (cals : list EventsByDates) (event : Event) : Prop :=
  ∃ feed day events,
    feed ∈ cals ∧ day ∈ CalDays c
    ∧ feed !! FormatYmdHis (FlattenTime day) = Some events
    ∧ event ∈ events ∧ filterEvent c (GetSummary event) = true.

(** Neither the location of the event nor the target location [tz] changes
    its offset around the event, which lies between 1970 and the year 8000. *)
Definition steadyEvent (event : Event) (tz : Location) (offE off : Z) : Prop :=
  tLoc (GetEnd event) = tLoc (GetStart event)
  ∧ Unix (GetStart event) ≤ Unix (GetEnd event)
  ∧ 0 ≤ Unix (GetStart event) ∧ Unix (GetEnd event) < 200000000000
  ∧ steady (tLoc (GetStart event)) offE
      (Unix (GetStart event) - 7200 - Z.abs offE)
      (Unix (GetEnd event) + Z.abs offE)
  ∧ steady tz off
      (Unix (GetStart event) - 3600 - Z.abs off)
      (Unix (GetEnd event) + Z.abs off).

(** An event in the zone of the spring transition: 08:00 to 10:00 UTC on
    2023-03-12, listed under that day, and the calendar of the one-day
    schedule 2023-03-12 in America/Vancouver as pass 1 finds it. *)
Definition marchEvent : Event :=
  mkEvent "Victoria Day" (Date 2023 3 12 8 0 0 0 UTC) (Date 2023 3 12 10 0 0 0 UTC).

Definition marchWorld : World :=
  mkWorld (LoadLocation Scenario.world)
    (fun _ => Some [ {[ "2023-03-12 00:00:00" := [marchEvent] ]} ]).

Definition marchPass1 : string + Calendar :=
  parseAndFilterPublicHolidayiCal marchWorld
    (emptyCalendar (Date 2023 3 12 0 0 0 0 Scenario.Vancouver)
       (Date 2023 3 12 0 0 0 0 Scenario.Vancouver) Scenario.conf
       Scenario.Vancouver)
    (CalendarURL Scenario.conf).

Definition marchTagged : Calendar :=
  match marchPass1 with
  | inr c => c
  | inl _ => emptyCalendar (Date 2023 3 12 0 0 0 0 Scenario.Vancouver)
               (Date 2023 3 12 0 0 0 0 Scenario.Vancouver) Scenario.conf
               Scenario.Vancouver
  end.

(** The calendar of the scenario as pass 1 finds and leaves it. *)
Definition scenarioEmpty : Calendar :=
  emptyCalendar (Scenario.may 19 0 0) (Scenario.may 24 0 0) Scenario.conf
    Scenario.Vancouver.

Definition scenarioPass1 : Calendar :=
  match parseAndFilterPublicHolidayiCal Scenario.world scenarioEmpty
          (CalendarURL Scenario.conf) with
  | inr c => c
  | inl _ => scenarioEmpty
  end.

Section EventHours.

Lemma Unix_lt_hours off t u :
  onHourAt off t → unixNano t + Hour ≤ unixNano u → Unix t < Unix u.
Proof.
  intros Ht H. rewrite (onHourAt_nano off t Ht) in H. unfold Unix at 2.
  assert (Unix t + 3600 ≤ unixNano u / Second); [|lia].
  apply Z.div_le_lower_bound; [reflexivity|].
  change Hour with (3600 * Second) in H. lia.
Qed.

Lemma elem_of_visitedHours event t :
  t ∈ visitedHours event
  ↔ ∃ i : nat, t = Add (FlattenTime (GetStart event)) (Z.of_nat i * Hour)
               ∧ unixNano t + Hour ≤ unixNano (FlattenTime (GetEnd event)).
Proof.
  unfold visitedHours.
  rewrite times_steps by apply Hour_pos. rewrite elem_of_stepsList. split.
  - intros (i & Hi & ->). exists i. split; [done|].
    apply (count_le _ _ Hour i Hour_pos) in Hi.
    unfold Add in *. cbn [unixNano] in *. lia.
  - intros (i & -> & Hi). exists i. split; [|done].
    apply (count_le _ _ Hour i Hour_pos).
    unfold Add in *. cbn [unixNano] in *. lia.
Qed.

(** The keys of pass 1 are the keys of the adjusted hours of the events it
    reaches. *)
Lemma elem_of_pass1Keys c cals k :
  k ∈ pass1Keys c cals
  ↔ ∃ event t, foundEvent c cals event ∧ t ∈ visitedHours event
               ∧ k = FormatRFC3339 (AdjustForTimezone t (ParsedTimezone (Config c))).
Proof.
  split.
  - unfold pass1Keys. intros Hk.
    apply list_elem_of_In, in_flat_map in Hk as (feed & Hfeed & Hk).
    unfold feedKeys in Hk. apply in_flat_map in Hk as (day & Hday & Hk).
    destruct (feed !! FormatYmdHis (FlattenTime day)) as [events|] eqn:Hevs;
      [|destruct Hk].
    cbn [default] in Hk. unfold eventsKeys in Hk.
    apply in_flat_map in Hk as (event & Hev & Hk).
    destruct (filterEvent c (GetSummary event)) eqn:Hf; [|destruct Hk].
    unfold eventKeys, eventHours in Hk. apply in_map_iff in Hk as (t & <- & Ht).
    exists event, t. split.
    + exists feed, day, events. rewrite <- !list_elem_of_In in *. done.
    + split; [|reflexivity]. unfold visitedHours.
      rewrite times_steps by apply Hour_pos. by apply list_elem_of_In.
  - intros (event & t & (feed & day & events & H1 & H2 & H3 & H4 & H5) & Ht & ->).
    by apply (pass1Keys_event c cals feed day events event t).
Qed.

(** Where the offsets are steady the adjusted hours of an event have keys
    other than the key of the hour at its end. *)
Lemma event_end_key event tz offE off t :
  steadyEvent event tz offE off → t ∈ visitedHours event →
  FormatRFC3339 (AdjustForTimezone t tz)
  ≠ FormatRFC3339 (AdjustForTimezone (FlattenTime (GetEnd event)) tz).
Proof.
  intros (HlE & Hle & Hlo & Hhi & HstE & Hst) Ht Heq.
  set (lE := tLoc (GetStart event)) in *.
  set (loE := Unix (GetStart event) - 7200 - Z.abs offE) in *.
  set (hiE := Unix (GetEnd event) + Z.abs offE) in *.
  set (lo := Unix (GetStart event) - 3600 - Z.abs off) in *.
  set (hi := Unix (GetEnd event) + Z.abs off) in *.
  assert (HinS : inside lE offE loE hiE (GetStart event))
    by (split; [reflexivity|unfold loE, hiE; lia]).
  assert (HinE : inside lE offE loE hiE (GetEnd event))
    by (split; [exact HlE|unfold loE, hiE; lia]).
  pose proof (Unix_FlattenTime_steady lE offE loE hiE HstE _ HinS) as US.
  pose proof (Unix_FlattenTime_steady lE offE loE hiE HstE _ HinE) as UE.
  pose proof (onHourAt_FlattenTime lE offE loE hiE HstE _ HinS) as HonS.
  pose proof (onHourAt_FlattenTime lE offE loE hiE HstE _ HinE) as HonE.
  pose proof (tLoc_FlattenTime_steady lE offE loE hiE HstE _ HinS) as LS.
  pose proof (tLoc_FlattenTime_steady lE offE loE hiE HstE _ HinE) as LE.
  set (fs := FlattenTime (GetStart event)) in *.
  set (fe := FlattenTime (GetEnd event)) in *.
  pose proof (Z.div_mod (Unix (GetStart event) + offE) 3600 ltac:(lia)) as D1.
  pose proof (Z.mod_pos_bound (Unix (GetStart event) + offE) 3600 ltac:(lia)) as B1.
  pose proof (Z.div_mod (Unix (GetEnd event) + offE) 3600 ltac:(lia)) as D2.
  pose proof (Z.mod_pos_bound (Unix (GetEnd event) + offE) 3600 ltac:(lia)) as B2.
  apply elem_of_visitedHours in Ht as (i & -> & Hi). fold fs fe in Hi.
  pose proof (onHourAt_Add offE fs (Z.of_nat i) HonS) as Hon.
  pose proof (Unix_Add_hours offE fs (Z.of_nat i) HonS) as HU.
  pose proof (Unix_lt_hours offE _ fe Hon Hi) as Hlt.
  set (t := Add fs (Z.of_nat i * Hour)) in *.
  assert (Hint : inside lE offE loE hiE t)
    by (split; [exact LS|unfold loE, hiE; lia]).
  assert (Hine : inside lE offE loE hiE fe)
    by (split; [exact LE|unfold loE, hiE; lia]).
  destruct (AdjustForTimezone_localSec tz off lo hi Hst t t) as (_ & _ & L1).
  { by apply (FlattenTime_onHourAt lE offE loE hiE HstE). }
  { by apply (onHourAt_nano offE). }
  { unfold lo, hi. lia. }
  { unfold lo, hi. lia. }
  destruct (AdjustForTimezone_localSec tz off lo hi Hst fe fe) as (_ & _ & L2).
  { by apply (FlattenTime_onHourAt lE offE loE hiE HstE). }
  { by apply (onHourAt_nano offE). }
  { unfold lo, hi. lia. }
  { unfold lo, hi. lia. }
  apply FormatRFC3339_localSec in Heq.
  - change (localSec (AdjustForTimezone t tz) = localSec (AdjustForTimezone fe tz)) in Heq.
    lia.
  - change (fourDigitYear (AdjustForTimezone t tz)).
    apply fourDigitYear_bound. lia.
  - apply fourDigitYear_bound. lia.
Qed.


End EventHours.

Section EventHoursScenario.

Lemma scenarioPass1_returns :
  parseAndFilterPublicHolidayiCal Scenario.world scenarioEmpty
    (CalendarURL Scenario.conf) = inr scenarioPass1.
Proof. unfold scenarioPass1, parseAndFilterPublicHolidayiCal. reflexivity. Qed.

Lemma victoriaDay_found :
  foundEvent scenarioEmpty [Scenario.feed] Scenario.victoriaDay.
Proof.
  exists Scenario.feed, (Scenario.may 22 0 0), [Scenario.victoriaDay].
  split; [apply list_elem_of_In; by left|].
  split; [apply list_elem_of_In; vm_compute; tauto|].
  split; [vm_compute; reflexivity|].
  split; [apply list_elem_of_In; by left|].
  vm_compute; reflexivity.
Qed.

Lemma victoriaDay_last_hour :
  Date 2023 5 22 23 0 0 0 UTC ∈ visitedHours Scenario.victoriaDay.
Proof. apply list_elem_of_In. vm_compute. tauto. Qed.

Lemma victoriaDay_steady :
  steadyEvent Scenario.victoriaDay (ParsedTimezone (Config scenarioEmpty)) 0 (-25200).
Proof.
  split; [reflexivity|]. split; [vm_compute; discriminate|].
  split; [vm_compute; discriminate|]. split; [vm_compute; reflexivity|].
  split.
  - apply steady_fixed. vm_compute. reflexivity.
  - apply (steady_narrow _ _ 1678615200 1699174799);
      [apply Vancouver_daylight_2023|vm_compute; discriminate
      |vm_compute; discriminate].
Qed.



End EventHoursScenario.
